(** * english-quiz backend: quiz generation pipeline and submission scoring

    A shallow embedding of [services/aiService.js] ([generateQuizFromText])
    and of the request handlers of [index.js], together with the parts of
    the JavaScript run time they rely on (strings, IEEE doubles,
    [JSON.parse], [String.prototype.match]). *)

From Stdlib Require Import ZArith NArith List Bool Lia String Ascii DecimalString.
Import ListNotations.

Open Scope Z_scope.
Set Warnings "-register-all".

(** ** JavaScript strings

    A JavaScript string is a sequence of UTF-16 code units. *)

Module JsString.

Definition code_unit := N.
Definition jsstring := list code_unit.

(** A literal whose characters are all below U+0100. *)
Definition lit (s : string) : jsstring :=
  map N_of_ascii (list_ascii_of_string s).

(** As [lit], with every apostrophe standing for a double quote
    (U+0022), to write JSON texts legibly. *)
Definition dq (s : string) : jsstring :=
  map (fun c => if N.eqb c 39 then 34%N else c) (lit s).

Definition eqb (a b : jsstring) : bool :=
  if list_eq_dec N.eq_dec a b then true else false.

(** WhiteSpace and LineTerminator code points of ECMAScript: what
    [String.prototype.trim] strips and what [\s] matches. *)
Definition is_white_space (c : code_unit) : bool :=
  ((9 <=? c) && (c <=? 13) || (c =? 32) || (c =? 160) || (c =? 5760)
   || (8192 <=? c) && (c <=? 8202) || (c =? 8232) || (c =? 8233)
   || (c =? 8239) || (c =? 8287) || (c =? 12288) || (c =? 65279))%N.

Fixpoint trim_start (s : jsstring) : jsstring :=
  match s with
  | c :: r => if is_white_space c then trim_start r else s
  | [] => []
  end.

Definition trim (s : jsstring) : jsstring :=
  rev (trim_start (rev (trim_start s))).

(** [s.substring(0, n)] *)
Definition substring0 (n : nat) (s : jsstring) : jsstring := firstn n s.

Fixpoint starts_with (p s : jsstring) : bool :=
  match p, s with
  | [], _ => true
  | a :: p', b :: s' => N.eqb a b && starts_with p' s'
  | _ :: _, [] => false
  end.

(** [s.includes(p)] *)
Fixpoint includes (s p : jsstring) : bool :=
  starts_with p s ||
  match s with
  | [] => false
  | _ :: r => includes r p
  end.

(** Decimal text of a natural number, [String(n)] for an array index
    or a question number. *)
Definition of_nat (n : nat) : jsstring :=
  lit (NilZero.string_of_uint (Nat.to_uint n)).

End JsString.
Import JsString.

(** ** IEEE 754 binary64 numbers

    The Number values the program meets, with the finite ones written
    [(-1)^neg * m * 2^e]; an operation rounds its exact rational result
    to the nearest double, ties to even. *)

Module Double.

Inductive double :=
| NaN
| Inf (neg : bool)
| Fin (neg : bool) (m : Z) (e : Z).

Definition round_half_even (num den : Z) : Z :=
  let quo := num / den in
  let rem := num mod den in
  match 2 * rem ?= den with
  | Lt => quo
  | Gt => quo + 1
  | Eq => if Z.even quo then quo else quo + 1
  end.

(** [floor (log2 (p / q))] for positive [p] and [q]. *)
Definition floor_log2 (p q : Z) : Z :=
  let l := Z.log2 p - Z.log2 q in
  if (if 0 <=? l then q * 2 ^ l <=? p else q <=? p * 2 ^ (- l))
  then l else l - 1.

(** The double nearest to [p / q] (both positive): 53 significant bits,
    least exponent -1074, overflow to infinity from [2^1024]. *)
Definition round_rne (neg : bool) (p q : Z) : double :=
  let scale := Z.max (floor_log2 p q - 52) (-1074) in
  let m := if 0 <=? scale then round_half_even p (q * 2 ^ scale)
           else round_half_even (p * 2 ^ (- scale)) q in
  if (971 <? scale) || ((scale =? 971) && (2 ^ 53 <=? m))
  then Inf neg else Fin neg m scale.

Definition of_Z (n : Z) : double :=
  if n =? 0 then Fin false 0 0 else round_rne (n <? 0) (Z.abs n) 1.

Definition of_nat (n : nat) : double := of_Z (Z.of_nat n).

(** The value of a decimal literal [mant * 10^e10]. *)
Definition of_decimal (neg : bool) (mant e10 : Z) : double :=
  if mant =? 0 then Fin neg 0 0
  else if 0 <=? e10 then round_rne neg (mant * 10 ^ e10) 1
  else round_rne neg mant (10 ^ (- e10)).

(** [a / b] *)
Definition div (a b : double) : double :=
  match a, b with
  | NaN, _ | _, NaN => NaN
  | Inf _, Inf _ => NaN
  | Inf s, Fin t _ _ => Inf (xorb s t)
  | Fin s _ _, Inf t => Fin (xorb s t) 0 0
  | Fin s ma ea, Fin t mb eb =>
      if mb =? 0 then (if ma =? 0 then NaN else Inf (xorb s t))
      else if ma =? 0 then Fin (xorb s t) 0 0
      else round_rne (xorb s t)
             (ma * 2 ^ Z.max (ea - eb) 0) (mb * 2 ^ Z.max (eb - ea) 0)
  end.

(** [a * b] *)
Definition mul (a b : double) : double :=
  match a, b with
  | NaN, _ | _, NaN => NaN
  | Inf s, Inf t => Inf (xorb s t)
  | Inf s, Fin t m _ | Fin t m _, Inf s =>
      if m =? 0 then NaN else Inf (xorb s t)
  | Fin s ma ea, Fin t mb eb =>
      if (ma =? 0) || (mb =? 0) then Fin (xorb s t) 0 0
      else round_rne (xorb s t)
             (ma * mb * 2 ^ Z.max (ea + eb) 0) (2 ^ Z.max (- (ea + eb)) 0)
  end.

(** [Math.round]: the integer nearest to [x], the larger one at a tie;
    a zero result keeps the sign of [x]. *)
Definition Math_round (x : double) : double :=
  match x with
  | NaN => NaN
  | Inf s => Inf s
  | Fin s m e =>
      if 0 <=? e then x
      else
        let k := - e in
        let r := ((if s then - (2 * m) else 2 * m) + 2 ^ k) / 2 ^ (k + 1) in
        if r =? 0 then Fin s 0 0 else of_Z r
  end.

Definition is_zero (x : double) : bool :=
  match x with Fin _ m _ => m =? 0 | _ => false end.

(** Numeric equality of [===]: NaN differs from everything, the two
    zeros are equal. *)
Definition eqb (a b : double) : bool :=
  match a, b with
  | Inf s, Inf t => Bool.eqb s t
  | Fin s ma ea, Fin t mb eb =>
      let e := Z.min ea eb in
      (ma * 2 ^ (ea - e) =? mb * 2 ^ (eb - e))
      && ((ma =? 0) || Bool.eqb s t)
  | _, _ => false
  end.

(** The integer a double stands for, when it is one. *)
Definition to_Z (x : double) : option Z :=
  match x with
  | Fin s m e =>
      if 0 <=? e then Some ((if s then -1 else 1) * m * 2 ^ e)
      else if m mod 2 ^ (- e) =? 0
           then Some ((if s then -1 else 1) * (m / 2 ^ (- e)))
           else None
  | _ => None
  end.

End Double.
Import Double.

(** ** Exceptions and completions *)

(** The body of an HTTP error response of the provider, as far as the
    program reads it: [err.response.status] and
    [err.response.data.error?.message]. *)
Record error_response := {
  resp_status : Z;
  resp_error_message : option jsstring
}.

(** A thrown value. [new Error(msg)] and the engine's own errors have
    only a message; an error of the HTTP client may also carry
    [code], [response] and [request]. *)
Record exn := {
  err_message : jsstring;
  err_code : option jsstring;
  err_response : option error_response;
  err_request : bool
}.

Definition Error (msg : jsstring) : exn :=
  {| err_message := msg; err_code := None;
     err_response := None; err_request := false |}.

Inductive completion (A : Type) : Type :=
| Return (a : A)
| Throw (e : exn).
Arguments Return {A} a.
Arguments Throw {A} e.

Definition bind {A B : Type} (c : completion A) (k : A -> completion B)
  : completion B :=
  match c with
  | Return a => k a
  | Throw e => Throw e
  end.

Notation "x <- c ;; k" := (bind c (fun x => k))
  (at level 61, c at next level, right associativity).

(** What the engine decides and the program only passes on: the text of
    the SyntaxError that [JSON.parse] raises on a given source, and the
    text [Number::toString] gives a double. *)
Record Engine := {
  syntax_error_message : jsstring -> jsstring;
  number_to_string : double -> jsstring
}.

(** ** JSON values *)

Module Json.

Inductive json :=
| JNull
| JBool (b : bool)
| JNum (n : double)
| JStr (s : jsstring)
| JArr (l : list json)
| JObj (members : list (jsstring * json)).

(** A JavaScript value of this program: a JSON value or [undefined]
    ([None]). *)
Definition jsval := option json.

(** ToBoolean *)
Definition truthy (v : jsval) : bool :=
  match v with
  | None => false
  | Some JNull => false
  | Some (JBool b) => b
  | Some (JNum n) =>
      match n with
      | NaN => false
      | _ => negb (Double.is_zero n)
      end
  | Some (JStr s) => match s with [] => false | _ => true end
  | Some (JArr _) => true
  | Some (JObj _) => true
  end.

(** [a === b]. Arrays and objects are equal only as the same
    reference; the operands the program compares are always distinct
    nodes (of one parsed tree, or of two), hence never equal. *)
Definition strict_equals (a b : jsval) : bool :=
  match a, b with
  | None, None => true
  | Some JNull, Some JNull => true
  | Some (JBool x), Some (JBool y) => Bool.eqb x y
  | Some (JNum x), Some (JNum y) => Double.eqb x y
  | Some (JStr x), Some (JStr y) => JsString.eqb x y
  | _, _ => false
  end.

(** SameValueZero, the comparison of [Array.prototype.includes]. *)
Definition same_value_zero (a b : jsval) : bool :=
  match a, b with
  | Some (JNum NaN), Some (JNum NaN) => true
  | _, _ => strict_equals a b
  end.

(** [arr.includes(x)] *)
Definition array_includes (l : list json) (x : jsval) : bool :=
  existsb (fun y => same_value_zero (Some y) x) l.

Definition is_array (v : jsval) : bool :=
  match v with Some (JArr _) => true | _ => false end.

Definition is_string (v : jsval) : bool :=
  match v with Some (JStr _) => true | _ => false end.

(** The own property [k] of an object built by [JSON.parse]: of
    duplicate names the last one stays. *)
Fixpoint own_property (k : jsstring) (ms : list (jsstring * json)) : jsval :=
  match ms with
  | [] => None
  | (k', v) :: r =>
      match own_property k r with
      | Some v' => Some v'
      | None => if JsString.eqb k k' then Some v else None
      end
  end.

Definition null_property_message (k : jsstring) : jsstring :=
  lit "Cannot read properties of null (reading '" ++ k ++ lit "')".

(** [v.k] for the property names the program reads ([quiz], [word],
    [question], [options], [correct], [name], [surname], [answers],
    [text], [length]); none of them but [length] exists on a built-in
    prototype. *)
Definition Get (v : json) (k : jsstring) : completion jsval :=
  match v with
  | JNull => Throw (Error (null_property_message k))
  | JObj ms => Return (own_property k ms)
  | JStr s =>
      if JsString.eqb k (lit "length")
      then Return (Some (JNum (Double.of_nat (List.length s))))
      else Return None
  | JArr l =>
      if JsString.eqb k (lit "length")
      then Return (Some (JNum (Double.of_nat (List.length l))))
      else Return None
  | JBool _ | JNum _ => Return None
  end.

(** [v[i]] for an integer index [i]. *)
Definition GetIndex (v : json) (i : nat) : completion jsval :=
  match v with
  | JNull => Throw (Error (null_property_message (JsString.of_nat i)))
  | JObj ms => Return (own_property (JsString.of_nat i) ms)
  | JStr s =>
      Return (match nth_error s i with
              | Some c => Some (JStr [c])
              | None => None
              end)
  | JArr l => Return (nth_error l i)
  | JBool _ | JNum _ => Return None
  end.

Definition has_own (k : jsstring) (ms : list (jsstring * json)) : bool :=
  existsb (fun kv => JsString.eqb k (fst kv)) ms.

(** ToString, as a template literal applies it. An object is printed
    by [Object.prototype.toString] unless an own [toString] member
    (never callable in parsed JSON) hides it, in which case the
    conversion throws; an array is joined with commas. *)
Fixpoint ToString (E : Engine) (v : json) : completion jsstring :=
  match v with
  | JNull => Return (lit "null")
  | JBool b => Return (lit (if b then "true" else "false"))
  | JNum n => Return (number_to_string E n)
  | JStr s => Return s
  | JArr l =>
      (fix join (l : list json) : completion jsstring :=
         match l with
         | [] => Return []
         | x :: r =>
             s <- match x with
                  | JNull => Return []
                  | _ => ToString E x
                  end ;;
             match r with
             | [] => Return s
             | _ => t <- join r ;; Return (s ++ lit "," ++ t)
             end
         end) l
  | JObj ms =>
      if has_own (lit "toString") ms
      then Throw (Error (lit "Cannot convert object to primitive value"))
      else Return (lit "[object Object]")
  end.

(** The conversion a template literal applies to a substitution;
    [undefined] prints as such. *)
Definition interpolate (E : Engine) (v : jsval) : completion jsstring :=
  match v with
  | Some x => ToString E x
  | None => Return (lit "undefined")
  end.

End Json.
Import Json.

(** ** JSON.parse

    A recursive-descent parser of the JSON grammar (ECMA-404, as
    [JSON.parse] reads it): white space is tab, line feed, carriage
    return and space; a string holds no raw control character; a number
    has no leading zero, no leading plus and no bare dot. *)

Module JsonParse.

Inductive presult (A : Type) : Type :=
| POk (a : A) (rest : jsstring)
| PErr
| PFuel.
Arguments POk {A} a rest.
Arguments PErr {A}.
Arguments PFuel {A}.

Definition is_json_ws (c : code_unit) : bool :=
  ((c =? 9) || (c =? 10) || (c =? 13) || (c =? 32))%N.

Fixpoint skip_ws (s : jsstring) : jsstring :=
  match s with
  | c :: r => if is_json_ws c then skip_ws r else s
  | [] => []
  end.

Definition is_digit (c : code_unit) : bool := ((48 <=? c) && (c <=? 57))%N.

Definition digit_value (c : code_unit) : Z := Z.of_N c - 48.

Definition hex_value (c : code_unit) : option N :=
  if ((48 <=? c) && (c <=? 57))%N then Some (c - 48)%N
  else if ((65 <=? c) && (c <=? 70))%N then Some (c - 55)%N
  else if ((97 <=? c) && (c <=? 102))%N then Some (c - 87)%N
  else None.

Definition hex4 (a b c d : code_unit) : option code_unit :=
  match hex_value a, hex_value b, hex_value c, hex_value d with
  | Some x, Some y, Some z, Some w => Some (((x * 16 + y) * 16 + z) * 16 + w)%N
  | _, _, _, _ => None
  end.

(** [accept c s]: the rest of [s] after its first code unit, when that
    is [c]. *)
Definition accept (c : code_unit) (s : jsstring) : option jsstring :=
  match s with
  | x :: r => if (x =? c)%N then Some r else None
  | [] => None
  end.

(** The code unit a one-letter escape stands for. *)
Definition simple_escape (e : code_unit) : option code_unit :=
  if (e =? 34)%N then Some 34%N          (* quotation mark *)
  else if (e =? 92)%N then Some 92%N     (* reverse solidus *)
  else if (e =? 47)%N then Some 47%N     (* solidus *)
  else if (e =? 98)%N then Some 8%N      (* b *)
  else if (e =? 102)%N then Some 12%N    (* f *)
  else if (e =? 110)%N then Some 10%N    (* n *)
  else if (e =? 114)%N then Some 13%N    (* r *)
  else if (e =? 116)%N then Some 9%N     (* t *)
  else None.

(** The characters of a string after its opening quote, up to the
    closing one; [acc] holds the decoded code units in reverse. *)
Fixpoint parse_string_body (s acc : jsstring) : presult jsstring :=
  match s with
  | [] => PErr
  | c :: r =>
      if (c =? 34)%N then POk (rev acc) r
      else if (c =? 92)%N then
        match r with
        | [] => PErr
        | e :: r1 =>
            match simple_escape e with
            | Some u => parse_string_body r1 (u :: acc)
            | None =>
                if (e =? 117)%N then
                  match r1 with
                  | h1 :: h2 :: h3 :: h4 :: r2 =>
                      match hex4 h1 h2 h3 h4 with
                      | Some u => parse_string_body r2 (u :: acc)
                      | None => PErr
                      end
                  | _ => PErr
                  end
                else PErr
            end
        end
      else if (c <? 32)%N then PErr
      else parse_string_body r (c :: acc)
  end.

(** A maximal run of digits: their value (after [acc]), how many there
    are, and the rest. *)
Fixpoint scan_digits (s : jsstring) (acc : Z) (n : Z) : Z * Z * jsstring :=
  match s with
  | c :: r =>
      if is_digit c then scan_digits r (acc * 10 + digit_value c) (n + 1)
      else (acc, n, s)
  | [] => (acc, n, [])
  end.

(** The exponent part after the mantissa [mant] with [nfrac] fraction
    digits: [e] or [E], an optional sign, at least one digit. *)
Definition parse_exponent (neg : bool) (mant nfrac : Z) (s : jsstring)
  : presult double :=
  match s with
  | e :: r =>
      if ((e =? 101) || (e =? 69))%N then
        let (eneg, r1) :=
          match accept 45%N r with
          | Some r' => (true, r')
          | None =>
              match accept 43%N r with
              | Some r' => (false, r')
              | None => (false, r)
              end
          end in
        let '(ev, en, r2) := scan_digits r1 0 0 in
        if en =? 0 then PErr
        else POk (Double.of_decimal neg mant ((if eneg then - ev else ev) - nfrac)) r2
      else POk (Double.of_decimal neg mant (- nfrac)) s
  | [] => POk (Double.of_decimal neg mant (- nfrac)) []
  end.

(** The fraction part after the integer part [ipart]: a dot and at
    least one digit. *)
Definition parse_fraction (neg : bool) (ipart : Z) (s : jsstring)
  : presult double :=
  match accept 46%N s with
  | Some r =>
      let '(mant, nfrac, r1) := scan_digits r ipart 0 in
      if nfrac =? 0 then PErr else parse_exponent neg mant nfrac r1
  | None => parse_exponent neg ipart 0 s
  end.

(** A number: an optional minus; [0], or a non-zero digit and further
    digits; an optional fraction; an optional exponent. *)
Definition parse_number (s : jsstring) : presult double :=
  let (neg, s1) := match accept 45%N s with
                   | Some r => (true, r)
                   | None => (false, s)
                   end in
  match s1 with
  | d :: r =>
      if is_digit d then
        if (d =? 48)%N then parse_fraction neg 0 r
        else
          let '(ipart, _, r1) := scan_digits s1 0 0 in
          parse_fraction neg ipart r1
      else PErr
  | [] => PErr
  end.

Definition expect (p : jsstring) (s : jsstring) : option jsstring :=
  if starts_with p s then Some (skipn (List.length p) s) else None.

Fixpoint parse_value (fuel : nat) (s : jsstring) : presult json :=
  match fuel with
  | O => PFuel
  | S fuel' =>
      match skip_ws s with
      | [] => PErr
      | c :: r =>
          if (c =? 123)%N then             (* left brace *)
            match accept 125%N (skip_ws r) with
            | Some r' => POk (JObj []) r'
            | None => parse_members fuel' r []
            end
          else if (c =? 91)%N then         (* left bracket *)
            match accept 93%N (skip_ws r) with
            | Some r' => POk (JArr []) r'
            | None => parse_elements fuel' r []
            end
          else if (c =? 34)%N then         (* quotation mark *)
            match parse_string_body r [] with
            | POk str r' => POk (JStr str) r'
            | PErr => PErr
            | PFuel => PFuel
            end
          else if (c =? 116)%N then
            match expect (lit "rue") r with
            | Some r' => POk (JBool true) r'
            | None => PErr
            end
          else if (c =? 102)%N then
            match expect (lit "alse") r with
            | Some r' => POk (JBool false) r'
            | None => PErr
            end
          else if (c =? 110)%N then
            match expect (lit "ull") r with
            | Some r' => POk JNull r'
            | None => PErr
            end
          else
            match parse_number (c :: r) with
            | POk n r' => POk (JNum n) r'
            | PErr => PErr
            | PFuel => PFuel
            end
      end
  end

(** The elements of an array after the bracket or after a comma; [acc]
    holds the elements read so far in reverse. *)
with parse_elements (fuel : nat) (s : jsstring) (acc : list json)
  : presult json :=
  match fuel with
  | O => PFuel
  | S fuel' =>
      match parse_value fuel' s with
      | POk v r =>
          match accept 44%N (skip_ws r) with
          | Some r' => parse_elements fuel' r' (v :: acc)
          | None =>
              match accept 93%N (skip_ws r) with
              | Some r' => POk (JArr (rev (v :: acc))) r'
              | None => PErr
              end
          end
      | PErr => PErr
      | PFuel => PFuel
      end
  end

(** The members of an object after the brace or after a comma. *)
with parse_members (fuel : nat) (s : jsstring) (acc : list (jsstring * json))
  : presult json :=
  match fuel with
  | O => PFuel
  | S fuel' =>
      match accept 34%N (skip_ws s) with
      | Some r =>
          match parse_string_body r [] with
          | POk k r1 =>
              match accept 58%N (skip_ws r1) with
              | Some r2 =>
                  match parse_value fuel' r2 with
                  | POk v r3 =>
                      match accept 44%N (skip_ws r3) with
                      | Some r' => parse_members fuel' r' ((k, v) :: acc)
                      | None =>
                          match accept 125%N (skip_ws r3) with
                          | Some r' => POk (JObj (rev ((k, v) :: acc))) r'
                          | None => PErr
                          end
                      end
                  | PErr => PErr
                  | PFuel => PFuel
                  end
              | None => PErr
              end
          | PErr => PErr
          | PFuel => PFuel
          end
      | None => PErr
      end
  end.

(** The whole text is one value between optional white space. The
    fuel covers every text (see [parse_value_fuel]). *)
Definition parse_text (s : jsstring) : presult json :=
  match parse_value (2 * List.length s + 1) s with
  | POk v r =>
      match skip_ws r with
      | [] => POk v []
      | _ => PErr
      end
  | PErr => PErr
  | PFuel => PFuel
  end.

(** [JSON.parse(s)] *)
Definition JSON_parse (E : Engine) (s : jsstring) : completion json :=
  match parse_text s with
  | POk v _ => Return v
  | _ => Throw (Error (syntax_error_message E s))
  end.

End JsonParse.
Import JsonParse.

(** ** String.prototype.match

    A backtracking matcher for the regular expressions of the program:
    literals, a capture group, and greedy or lazy stars over one
    character class. Positions count code units. *)

Module Regex.

Inductive cls :=
| ClsSpace   (* \s *)
| ClsAny.    (* [\s\S] *)

Inductive re :=
| Lit (s : jsstring)
| Star (greedy : bool) (c : cls)
| Seq (a b : re)
| Group (a : re).

Definition in_class (c : cls) (x : code_unit) : bool :=
  match c with
  | ClsSpace => is_white_space x
  | ClsAny => true
  end.

Section Matcher.
Context {R : Type}.

(** [c*]: as many as possible first, then fewer. *)
Fixpoint star_greedy (c : cls) (pos : nat) (s : jsstring)
    (k : nat -> jsstring -> option R) : option R :=
  match s with
  | x :: r =>
      if in_class c x then
        match star_greedy c (S pos) r k with
        | Some m => Some m
        | None => k pos s
        end
      else k pos s
  | [] => k pos s
  end.

(** [c*?]: as few as possible first, then more. *)
Fixpoint star_lazy (c : cls) (pos : nat) (s : jsstring)
    (k : nat -> jsstring -> option R) : option R :=
  match k pos s with
  | Some m => Some m
  | None =>
      match s with
      | x :: r => if in_class c x then star_lazy c (S pos) r k else None
      | [] => None
      end
  end.

(** Match [r] at position [pos], where [s] is the text from there
    on; [cap] is the span of the capture group so far, and [k]
    continues with the end position and the rest of the text. *)
Fixpoint run (r : re) (pos : nat) (s : jsstring) (cap : option (nat * nat))
    (k : nat -> jsstring -> option (nat * nat) -> option R) : option R :=
  match r with
  | Lit p =>
      if starts_with p s
      then k (pos + List.length p)%nat (skipn (List.length p) s) cap
      else None
  | Star g c =>
      (if g then star_greedy else star_lazy) c pos s
        (fun pos' s' => k pos' s' cap)
  | Seq a b => run a pos s cap (fun pos' s' cap' => run b pos' s' cap' k)
  | Group a => run a pos s cap (fun pos' s' _ => k pos' s' (Some (pos, pos')))
  end.
End Matcher.

(** The leftmost start from which [r] matches: start, end and the span
    of the group. *)
Fixpoint search (r : re) (pos : nat) (s : jsstring)
  : option (nat * nat * option (nat * nat)) :=
  match run r pos s None (fun e _ cap => Some (pos, e, cap)) with
  | Some m => Some m
  | None =>
      match s with
      | [] => None
      | _ :: s' => search r (S pos) s'
      end
  end.

Definition slice (a b : nat) (s : jsstring) : jsstring :=
  firstn (b - a) (skipn a s).

(** The array [match] returns: element 0 is the whole match, element 1
    the capture group. *)
Record match_array := {
  whole : jsstring;
  group1 : option jsstring
}.

(** [s.match(r)] for a regular expression without flags. *)
Definition String_match (r : re) (s : jsstring) : option match_array :=
  match search r 0 s with
  | Some (a, b, cap) =>
      Some {| whole := slice a b s;
              group1 := match cap with
                        | Some (c, d) => Some (slice c d s)
                        | None => None
                        end |}
  | None => None
  end.

End Regex.
Import Regex.

(** ** services/aiService.js *)

(** How the one call to the provider ends: the promise resolves with a
    response whose data is an object in which
    [choices?.[0]?.message?.content] is a string or is missing, or it
    rejects with an error. *)
Inductive axios_outcome :=
| Resolved (content : option jsstring)
| Rejected (err : exn).

(** The surroundings of a request: the engine, the configured key and
    the provider, which answers a request made for the (truncated)
    text. *)
Record World := {
  engine : Engine;
  OPENROUTER_API_KEY : option jsstring;
  axios_post : jsstring -> axios_outcome
}.

Module AiService.

(** [/```json\s*([\s\S]*?)\s*```/] *)
Definition fence_re : re :=
  Seq (Lit (lit "```json"))
    (Seq (Star true ClsSpace)
       (Seq (Group (Star false ClsAny))
          (Seq (Star true ClsSpace) (Lit (lit "```"))))).

(** [/{[\s\S]*}/] *)
Definition brace_re : re :=
  Seq (Lit (lit "{")) (Seq (Star true ClsAny) (Lit (lit "}"))).

(** Lines 97-126: from the raw content to [quizObj]. *)
Definition extract (E : Engine) (content : jsstring) : completion json :=
  match JSON_parse E content with
  | Return quizObj => Return quizObj
  | Throw _ =>
      let jsonMatch :=
        match String_match fence_re content with
        | Some m => Some m
        | None => String_match brace_re content
        end in
      match jsonMatch with
      | None =>
          Throw (Error (lit "No JSON object found in model response. Raw content: "
                          ++ substring0 200 content))
      | Some m =>
          match JSON_parse E (whole m) with
          | Return quizObj => Return quizObj
          | Throw e2 =>
              Throw (Error (lit "Failed to parse extracted JSON: "
                              ++ err_message e2))
          end
      end
  end.

Definition question_label (i : nat) : jsstring :=
  lit "Question " ++ JsString.of_nat (i + 1).

(** [!q.word || !q.question || !q.options || !q.correct] *)
Definition missing_fields (q : json) : completion bool :=
  word <- Get q (lit "word") ;;
  if negb (truthy word) then Return true else
  question <- Get q (lit "question") ;;
  if negb (truthy question) then Return true else
  options <- Get q (lit "options") ;;
  if negb (truthy options) then Return true else
  correct <- Get q (lit "correct") ;;
  Return (negb (truthy correct)).

(** The body of the validation loop for question [i] (lines 144-160). *)
Definition validate_question (E : Engine) (i : nat) (q : json)
  : completion unit :=
  missing <- missing_fields q ;;
  if missing
  then Throw (Error (question_label i ++ lit " is missing required fields"))
  else
    options <- Get q (lit "options") ;;
    match options with
    | Some (JArr opts) =>
        if negb (List.length opts =? 4)%nat
        then Throw (Error (question_label i ++ lit " must have exactly 4 options"))
        else
          correct <- Get q (lit "correct") ;;
          if negb (array_includes opts correct)
          then
            shown <- match correct with
                     | Some c => ToString E c
                     | None => Return (lit "undefined")
                     end ;;
            Throw (Error (question_label i ++ dq " correct answer '" ++ shown
                            ++ dq "' not found in options"))
          else Return tt
    | _ => Throw (Error (question_label i ++ lit " must have exactly 4 options"))
    end.

(** [for (let i = ...; i < quizObj.quiz.length; i++)], from index [i]
    over the remaining questions. *)
Fixpoint validate_questions (E : Engine) (i : nat) (qs : list json)
  : completion unit :=
  match qs with
  | [] => Return tt
  | q :: rest =>
      _ <- validate_question E i q ;;
      validate_questions E (S i) rest
  end.

(** Lines 131-164: the validated question list of [quizObj]. *)
Definition validate (E : Engine) (quizObj : json) : completion (list json) :=
  quiz <- Get quizObj (lit "quiz") ;;
  if negb (truthy quiz) || negb (is_array quiz) then
    Throw (Error (lit "Invalid quiz format returned by model - missing quiz array"))
  else
    match quiz with
    | Some (JArr qs) =>
        if (List.length qs =? 0)%nat then Throw (Error (lit "Quiz array is empty"))
        else
          _ <- validate_questions E 0 qs ;;
          Return qs
    | _ =>
        Throw (Error (lit "Invalid quiz format returned by model - missing quiz array"))
    end.

(** The [try] block (lines 53-164). *)
Definition request_quiz (W : World) (text : jsstring) : completion (list json) :=
  content <- match axios_post W (substring0 1000 text) with
             | Resolved c => Return c
             | Rejected err => Throw err
             end ;;
  match content with
  | Some ((_ :: _) as c) =>
      quizObj <- extract (engine W) c ;;
      validate (engine W) quizObj
  | _ => Throw (Error (lit "No content received from AI model"))
  end.

(** The tail of the [catch] block (lines 189-198). *)
Definition known_error (err : exn) : exn :=
  if match err_code err with
     | Some code => JsString.eqb code (lit "ECONNABORTED")
     | None => false
     end
  then Error (lit "API request timed out. Please try again later.")
  else if includes (err_message err) (lit "API key") then err
  else if includes (err_message err) (lit "JSON") then err
  else Error (lit "Failed to generate quiz: " ++ err_message err).

(** The [catch] block (lines 166-199): what is thrown in place of
    [err]. *)
Definition on_error (err : exn) : exn :=
  match err_response err with
  | Some r =>
      if resp_status r =? 401 then
        Error (lit "API authentication failed. Please check your OPENROUTER_API_KEY.")
      else if resp_status r =? 429 then
        Error (lit "API rate limit exceeded. Please try again later.")
      else if resp_status r =? 400 then
        Error (lit "API request invalid: "
                 ++ match resp_error_message r with
                    | Some ((_ :: _) as m) => m
                    | _ => lit "Bad request"
                    end)
      else known_error err
  | None =>
      if err_request err then
        Error (lit "No response received from AI service. Please check your internet connection.")
      else known_error err
  end.

Definition input_error : exn :=
  Error (lit "Input text must be a meaningful string (at least 20 characters)").

(** The log line of line 6 prints [text ? text.length : 0]. *)
Definition log_input_length (E : Engine) (text : jsval) : completion jsstring :=
  match text with
  | Some v =>
      if truthy text then len <- Get v (lit "length") ;; interpolate E len
      else Return (number_to_string E (Double.of_Z 0))
  | None => Return (number_to_string E (Double.of_Z 0))
  end.

Definition generateQuizFromText (W : World) (text : jsval)
  : completion (list json) :=
  _ <- log_input_length (engine W) text ;;
  match text with
  | Some (JStr t) =>
      if negb (truthy text) || (List.length (trim t) <? 20)%nat
      then Throw input_error
      else
        match OPENROUTER_API_KEY W with
        | Some (_ :: _) =>
            match request_quiz W t with
            | Return quiz => Return quiz
            | Throw err => Throw (on_error err)
            end
        | _ =>
            Throw (Error (lit "API key is not configured. Please set OPENROUTER_API_KEY in your .env file."))
        end
  | _ => Throw input_error
  end.

End AiService.
Import AiService.

(** ** index.js *)

Module Server.

(** An entry of [wrongAnswers]. *)
Record WrongAnswer := {
  wa_questionNumber : nat;
  wa_question : jsval;
  wa_word : jsval;
  wa_correctAnswer : jsval;
  wa_userAnswer : jsval;
  wa_options : jsval
}.

(** An entry of [detailedResults]. *)
Record DetailedResult := {
  questionNumber : nat;
  question : jsval;
  word : jsval;
  correctAnswer : jsval;
  userAnswer : jsval;
  isCorrect : bool;
  options : jsval
}.

(** An entry of [quizResults]. *)
Record ResultRecord := {
  name : jsval;
  surname : jsval;
  score : nat;
  total : nat;
  percentage : double;
  date : jsstring;
  detailedResults : list DetailedResult
}.

(** The module state: [currentQuiz] ([None] for [null]) and
    [quizResults]. *)
Record State := {
  currentQuiz : option (list json);
  quizResults : list ResultRecord
}.

(** The JSON bodies the handlers send. *)
Inductive Body :=
| ErrorBody (error : jsstring)
| QuizGenerated (questionsCount : nat)
| Submitted (score total : nat) (percentage : double)
    (wrongAnswers : list WrongAnswer)
| InternalServerError.

Record Response := {
  status : Z;
  body : Body
}.

Definition respond (code : Z) (b : Body) : Response :=
  {| status := code; body := b |}.

(** [requireAdmin]: [next] runs for a session marked as admin. *)
Definition requireAdmin (isAdmin : bool) (st : State)
    (next : State -> Response * State) : Response * State :=
  if isAdmin then next st
  else (respond 403 (ErrorBody (lit "Forbidden - Admin access required")), st).

(** The [try] block of [POST /api/admin/quiz] (lines 162-184). The log
    line of line 169 converts [text.length] to a string before line 170
    calls [text.substring]. *)
Definition admin_quiz_try (W : World) (st : State) (reqBody : json)
  : completion (Response * State) :=
  text <- Get reqBody (lit "text") ;;
  match text with
  | Some t =>
      if negb (truthy text) then
        Return (respond 400 (ErrorBody (lit "Text is required")), st)
      else
        len <- Get t (lit "length") ;;
        _ <- interpolate (engine W) len ;;
        if negb (is_string text) then
          Throw (Error (lit "text.substring is not a function"))
        else
          quiz <- generateQuizFromText W text ;;
          Return (respond 200 (QuizGenerated (List.length quiz)),
                  {| currentQuiz := Some quiz; quizResults := [] |})
  | None => Return (respond 400 (ErrorBody (lit "Text is required")), st)
  end.

(** The handler of [POST /api/admin/quiz]. *)
Definition admin_quiz (W : World) (st : State) (reqBody : json)
  : Response * State :=
  match admin_quiz_try W st reqBody with
  | Return out => out
  | Throw error => (respond 500 (ErrorBody (err_message error)), st)
  end.

(** The route with its [requireAdmin] middleware. *)
Definition post_admin_quiz (W : World) (isAdmin : bool) (st : State)
    (reqBody : json) : Response * State :=
  requireAdmin isAdmin st (fun st => admin_quiz W st reqBody).

(** [answers[i] || 'No answer'] *)
Definition or_no_answer (a : jsval) : jsval :=
  if truthy a then a else Some (JStr (lit "No answer")).

Record Grading := {
  g_score : nat;
  g_wrongAnswers : list WrongAnswer;
  g_detailedResults : list DetailedResult
}.

(** One call of the [forEach] callback (lines 234-261). For a wrong
    answer the log line of line 240 converts [answers[i]] and
    [q.correct] to strings before the entry is pushed. *)
Definition grade_question (E : Engine) (answers : json) (q : json) (i : nat)
    (g : Grading) : completion Grading :=
  a <- GetIndex answers i ;;
  correct <- Get q (lit "correct") ;;
  let isCorrect := strict_equals a correct in
  _ <- (if isCorrect then Return []
        else
          answered <- interpolate E a ;;
          expected <- interpolate E correct ;;
          Return (answered ++ expected)) ;;
  qquestion <- Get q (lit "question") ;;
  qword <- Get q (lit "word") ;;
  qoptions <- Get q (lit "options") ;;
  let detail :=
    {| questionNumber := i + 1; question := qquestion; word := qword;
       correctAnswer := correct; userAnswer := or_no_answer a;
       isCorrect := isCorrect; options := qoptions |} in
  if isCorrect then
    Return {| g_score := g_score g + 1;
              g_wrongAnswers := g_wrongAnswers g;
              g_detailedResults := g_detailedResults g ++ [detail] |}
  else
    Return {| g_score := g_score g;
              g_wrongAnswers :=
                g_wrongAnswers g ++
                [{| wa_questionNumber := i + 1; wa_question := qquestion;
                    wa_word := qword; wa_correctAnswer := correct;
                    wa_userAnswer := or_no_answer a;
                    wa_options := qoptions |}];
              g_detailedResults := g_detailedResults g ++ [detail] |}.

(** [currentQuiz.forEach((q, i) => ...)] from index [i] on. *)
Fixpoint grade (E : Engine) (answers : json) (i : nat) (quiz : list json)
    (g : Grading) : completion Grading :=
  match quiz with
  | [] => Return g
  | q :: rest =>
      g' <- grade_question E answers q i g ;;
      grade E answers (S i) rest g'
  end.

(** [Math.round((score / currentQuiz.length) * 100)] *)
Definition compute_percentage (score len : nat) : double :=
  Math_round (Double.mul (Double.div (Double.of_nat score) (Double.of_nat len))
                (Double.of_Z 100)).

Definition bad_request (msg : string) (st : State) : Response * State :=
  (respond 400 (ErrorBody (lit msg)), st).

(** [v || 'NOT PROVIDED'], as lines 210 and 211 print it. *)
Definition log_provided (E : Engine) (v : jsval) : completion jsstring :=
  if truthy v then interpolate E v else Return (lit "NOT PROVIDED").

(** [answers ? answers.length : 0], as line 212 prints it. *)
Definition log_answers_count (E : Engine) (answers : jsval)
  : completion jsstring :=
  match answers with
  | Some ans =>
      if truthy answers then len <- Get ans (lit "length") ;; interpolate E len
      else Return (number_to_string E (Double.of_Z 0))
  | None => Return (number_to_string E (Double.of_Z 0))
  end.

(** The handler of [POST /api/quiz/submit], run at time [now]. The log
    lines of lines 210 to 212 convert the name, the surname and the
    answer count to strings before the guards of line 215 are reached. *)
Definition quiz_submit_body (E : Engine) (now : jsstring) (st : State)
    (reqBody : json) : completion (Response * State) :=
  name <- Get reqBody (lit "name") ;;
  surname <- Get reqBody (lit "surname") ;;
  answers <- Get reqBody (lit "answers") ;;
  _ <- log_provided E name ;;
  _ <- log_provided E surname ;;
  _ <- log_answers_count E answers ;;
  if negb (truthy name) || negb (truthy surname) || negb (truthy answers) then
    Return (bad_request "Name, surname, and answers required" st)
  else
    match currentQuiz st, answers with
    | Some quiz, Some ans =>
        len <- Get ans (lit "length") ;;
        if negb (strict_equals len (Some (JNum (Double.of_nat (List.length quiz)))))
        then Return (bad_request "Answer count does not match question count" st)
        else
          g <- grade E ans 0 quiz
                 {| g_score := 0; g_wrongAnswers := []; g_detailedResults := [] |} ;;
          let percentage := compute_percentage (g_score g) (List.length quiz) in
          let result :=
            {| name := name; surname := surname; score := g_score g;
               total := List.length quiz; percentage := percentage;
               date := now; detailedResults := g_detailedResults g |} in
          Return (respond 200
                    (Submitted (g_score g) (List.length quiz) percentage
                       (g_wrongAnswers g)),
                  {| currentQuiz := currentQuiz st;
                     quizResults := quizResults st ++ [result] |})
    | _, _ => Return (bad_request "No quiz available" st)
    end.

(** An exception that leaves the handler reaches the error-handling
    middleware (lines 301-307). *)
Definition post_quiz_submit (E : Engine) (now : jsstring) (st : State)
    (reqBody : json) : Response * State :=
  match quiz_submit_body E now st reqBody with
  | Return out => out
  | Throw _ => (respond 500 InternalServerError, st)
  end.

End Server.
Import Server.


(** ** What the validator and the scorer are to guarantee *)

Module ValidatorSpec.

(** A question as the validator leaves it: the four fields are present
    and truthy, [options] is an array of four entries, and [correct] is
    one of them. *)
Definition well_formed_question (q : json) : Prop :=
  exists w qu opts c,
    Get q (lit "word") = Return (Some w) /\ truthy (Some w) = true
    /\ Get q (lit "question") = Return (Some qu) /\ truthy (Some qu) = true
    /\ Get q (lit "options") = Return (Some (JArr opts))
    /\ List.length opts = 4%nat
    /\ Get q (lit "correct") = Return (Some c) /\ truthy (Some c) = true
    /\ array_includes opts (Some c) = true.

(** The options of [q] are an array of four entries holding [correct]. *)
Definition four_options_with_correct (q : json) : Prop :=
  exists opts c,
    Get q (lit "options") = Return (Some (JArr opts))
    /\ List.length opts = 4%nat
    /\ Get q (lit "correct") = Return (Some c)
    /\ array_includes opts (Some c) = true.

(** The options of [q] are pairwise different. *)
Definition distinct_options (q : json) : Prop :=
  exists opts, Get q (lit "options") = Return (Some (JArr opts)) /\ NoDup opts.

(** A question list the validation loop passes. *)
Definition accepted (quiz : list json) : Prop :=
  quiz <> [] /\ Forall well_formed_question quiz.

(** The state invariant: the current quiz, if any, is an accepted one. *)
Definition valid_state (st : State) : Prop :=
  forall quiz, currentQuiz st = Some quiz -> accepted quiz.

End ValidatorSpec.
Import ValidatorSpec.

Module ScoringSpec.

(** [q.k], when reading it does not throw. *)
Definition field (q : json) (k : string) : jsval :=
  match Get q (lit k) with
  | Return v => v
  | Throw _ => None
  end.

(** [answers[i]], when reading it does not throw. *)
Definition item (answers : json) (i : nat) : jsval :=
  match GetIndex answers i with
  | Return v => v
  | Throw _ => None
  end.

(** The detailed entry of question [q] at index [i]. *)
Definition graded (answers : json) (i : nat) (q : json) : DetailedResult :=
  {| questionNumber := i + 1;
     question := field q "question";
     word := field q "word";
     correctAnswer := field q "correct";
     userAnswer := or_no_answer (item answers i);
     isCorrect := strict_equals (item answers i) (field q "correct");
     options := field q "options" |}.

(** The wrong-answer entry that goes with a detailed entry. *)
Definition wrong_of (d : DetailedResult) : WrongAnswer :=
  {| wa_questionNumber := questionNumber d;
     wa_question := question d;
     wa_word := word d;
     wa_correctAnswer := correctAnswer d;
     wa_userAnswer := userAnswer d;
     wa_options := options d |}.

Fixpoint details (answers : json) (i : nat) (quiz : list json)
  : list DetailedResult :=
  match quiz with
  | [] => []
  | q :: rest => graded answers i q :: details answers (S i) rest
  end.

Definition is_wrong (d : DetailedResult) : bool := negb (isCorrect d).

(** What the loop has added to [g]: the score counts the correct
    entries, the wrong answers are the incorrect entries in order, and
    there is one detailed entry per question. *)
Definition graded_from (answers : json) (i : nat) (quiz : list json)
    (g : Grading) : Grading :=
  {| g_score := g_score g
                + List.length (filter isCorrect (details answers i quiz));
     g_wrongAnswers := g_wrongAnswers g
                       ++ map wrong_of (filter is_wrong (details answers i quiz));
     g_detailedResults := g_detailedResults g ++ details answers i quiz |}.

(** [answers[i] === quiz[i].correct] *)
Definition answer_matches (answers : json) (quiz : list json) (i : nat) : bool :=
  match nth_error quiz i with
  | Some q => strict_equals (item answers i) (field q "correct")
  | None => false
  end.

(** The number of indices at which the answer equals the correct
    value. *)
Definition count_matching (answers : json) (quiz : list json) : nat :=
  List.length (filter (answer_matches answers quiz) (seq 0 (List.length quiz))).

(** [floor (100 * score / total + 1/2)]: the percentage rounded to the
    nearest integer, halves up, in exact arithmetic. *)
Definition round_half_up (score total : Z) : Z :=
  (200 * score + total) / (2 * total).

(** The record a submission appends. *)
Definition result_of (now : jsstring) (name surname : jsval) (answers : json)
    (quiz : list json) : ResultRecord :=
  let ds := details answers 0 quiz in
  {| name := name; surname := surname;
     score := List.length (filter isCorrect ds);
     total := List.length quiz;
     percentage := compute_percentage (List.length (filter isCorrect ds))
                     (List.length quiz);
     date := now;
     detailedResults := ds |}.

(** [v.length] as the handler compares it with the quiz length. *)
Definition length_matches (answers : json) (quiz : list json) : bool :=
  strict_equals (field answers "length")
    (Some (JNum (Double.of_nat (List.length quiz)))).

(** The submission passes the three guards of the handler. *)
Definition passes_guards (st : State) (name surname answers : jsval) : bool :=
  truthy name && truthy surname && truthy answers
  && match currentQuiz st, answers with
     | Some quiz, Some ans => length_matches ans quiz
     | _, _ => false
     end.

(** [v] converts to a string, as a template literal needs it to. *)
Definition prints (E : Engine) (v : jsval) : Prop :=
  exists s, interpolate E v = Return s.

(** What the log lines ahead of the guards convert: the name, the
    surname and the answer count. *)
Definition header_prints (E : Engine) (name surname answers : jsval) : Prop :=
  prints E name /\ prints E surname
  /\ match answers with
     | Some ans => prints E (field ans "length")
     | None => True
     end.

(** What the log line of a wrong answer converts of the submission:
    the answers to the [n] questions. *)
Definition answers_print (E : Engine) (answers : json) (n : nat) : Prop :=
  forall i, (i < n)%nat -> prints E (item answers i).

(** Every value the handler logs of the submission converts to a
    string. Strings, numbers, booleans, [null], absent values and
    arrays and objects without a [toString] member of their own all
    do. *)
Definition loggable (E : Engine) (st : State) (name surname answers : jsval)
  : Prop :=
  header_prints E name surname answers
  /\ forall quiz ans,
       currentQuiz st = Some quiz -> answers = Some ans ->
       answers_print E ans (List.length quiz).




End ScoringSpec.
Import ScoringSpec.

(** ** index.js: the other routes, sessions and the request loop *)

Module App.

(** The environment the process reads once at start-up. *)
Record Config := {
  cfg_engine : Engine;
  cfg_OPENROUTER_API_KEY : option jsstring;
  ADMIN_USERNAME : option jsstring;
  ADMIN_PASSWORD : option jsstring;
  NODE_ENV : option jsstring;
  ALLOWED_ORIGIN : option jsstring
}.

(** [process.env.X] as a value: a string or [undefined]. *)
Definition env_value (x : option jsstring) : jsval :=
  match x with
  | Some v => Some (JStr v)
  | None => None
  end.

(** [process.env.X || fallback] *)
Definition env_or (x : option jsstring) (fallback : string) : jsstring :=
  match x with
  | Some ((_ :: _) as v) => v
  | _ => lit fallback
  end.

(** The [origin] function of the CORS configuration (lines 24-45):
    [Return true] stands for [callback(null, true)], a thrown error for
    [callback(new Error(...))]. *)
Definition fixed_origins : list jsstring :=
  [lit "http://localhost:3000"; lit "http://127.0.0.1:3000";
   lit "https://english-quiz-front.onrender.com"].

Definition allowedOrigins (cfg : Config) : list jsstring :=
  fixed_origins
  ++ match ALLOWED_ORIGIN cfg with
     | Some ((_ :: _) as o) => [o]
     | _ => []
     end.

Definition cors_origin (cfg : Config) (origin : option jsstring) : completion bool :=
  if negb (truthy (env_value origin)) then Return true
  else
    match origin with
    | Some o =>
        if existsb (JsString.eqb o) (allowedOrigins cfg) then Return true
        else Throw (Error (lit "Not allowed by CORS"))
    | None => Return true
    end.

(** The JSON bodies of the routes that [Server] does not model, next to
    the bodies it does. *)
Inductive View :=
| Handler (b : Body)
| Welcome (timestamp environment : jsstring)
| HealthView (timestamp environment : jsstring) (uptime : double) (memory : json)
    (quiz_available : bool) (quiz_count results_count : nat)
| LoginSuccess
| QuizView (quiz : list json) (available : bool) (count : nat)
| ResultsView (results : list ResultRecord) (count : nat) (quiz_available : bool)
| RouteNotFound (path method : jsstring).

Record Reply := {
  code : Z;
  view : View
}.

Definition reply (c : Z) (v : View) : Reply := {| code := c; view := v |}.

Definition lift (r : Response) : Reply := reply (status r) (Handler (body r)).

(** The server: the module state and the sessions whose [isAdmin] flag
    is set, by session id. *)
Record Server := {
  store : State;
  admins : list nat
}.

Definition initial : Server :=
  {| store := {| currentQuiz := None; quizResults := [] |}; admins := [] |}.

(** [req.session.isAdmin] for the session [sid]. *)
Definition is_admin (sid : nat) (sv : Server) : bool :=
  existsb (Nat.eqb sid) (admins sv).

(** A request as a route receives it; what the handler reads from the
    clock, the process and the provider comes with it. *)
Inductive Request :=
| GetRoot (timestamp : jsstring)
| GetHealth (timestamp : jsstring) (uptime : double) (memory : json)
| PostAdminLogin (reqBody : json)
| PostAdminQuiz (provider : jsstring -> axios_outcome) (reqBody : json)
| GetQuiz
| PostQuizSubmit (now : jsstring) (reqBody : json)
| GetAdminResults
| Unrouted (method path : jsstring).

(** The handler of [POST /api/admin/login] (lines 116-140): the reply,
    and whether [req.session.isAdmin] is set. *)
Definition admin_login (cfg : Config) (reqBody : json) : completion (Reply * bool) :=
  username <- Get reqBody (lit "username") ;;
  password <- Get reqBody (lit "password") ;;
  if negb (truthy (env_value (ADMIN_USERNAME cfg)))
     || negb (truthy (env_value (ADMIN_PASSWORD cfg)))
  then
    Return (reply 500 (Handler (ErrorBody
              (lit "Server configuration error: Admin credentials not set"))),
            false)
  else if strict_equals username (env_value (ADMIN_USERNAME cfg))
          && strict_equals password (env_value (ADMIN_PASSWORD cfg))
  then Return (reply 200 LoginSuccess, true)
  else Return (reply 401 (Handler (ErrorBody (lit "Invalid credentials"))), false).

(** The handler of [GET /api/quiz] (lines 193-202). *)
Definition get_quiz (st : State) : Reply :=
  reply 200
    (QuizView (match currentQuiz st with Some quiz => quiz | None => [] end)
       (match currentQuiz st with Some _ => true | None => false end)
       (match currentQuiz st with Some quiz => List.length quiz | None => 0%nat end)).

(** The handler of [GET /api/admin/results] (lines 291-298). *)
Definition get_admin_results (st : State) : Reply :=
  reply 200
    (ResultsView (quizResults st) (List.length (quizResults st))
       (match currentQuiz st with Some _ => true | None => false end)).

(** The handler of [GET /api/health] (lines 101-113). *)
Definition get_health (cfg : Config) (timestamp : jsstring) (uptime : double)
    (memory : json) (st : State) : Reply :=
  reply 200
    (HealthView timestamp (env_or (NODE_ENV cfg) "development") uptime memory
       (match currentQuiz st with Some _ => true | None => false end)
       (match currentQuiz st with Some quiz => List.length quiz | None => 0%nat end)
       (List.length (quizResults st))).

Definition forbidden : Reply :=
  reply 403 (Handler (ErrorBody (lit "Forbidden - Admin access required"))).

Definition world_of (cfg : Config) (provider : jsstring -> axios_outcome) : World :=
  {| engine := cfg_engine cfg;
     OPENROUTER_API_KEY := cfg_OPENROUTER_API_KEY cfg;
     axios_post := provider |}.

(** One request of the session [sid] against the server. *)
Definition handle (cfg : Config) (sid : nat) (req : Request) (sv : Server)
  : Reply * Server :=
  match req with
  | GetRoot timestamp =>
      (reply 200 (Welcome timestamp (env_or (NODE_ENV cfg) "development")), sv)
  | GetHealth timestamp uptime memory =>
      (get_health cfg timestamp uptime memory (store sv), sv)
  | PostAdminLogin reqBody =>
      match admin_login cfg reqBody with
      | Return (r, granted) =>
          (r, if granted
              then {| store := store sv; admins := sid :: admins sv |}
              else sv)
      | Throw _ => (reply 500 (Handler InternalServerError), sv)
      end
  | PostAdminQuiz provider reqBody =>
      let (r, st) := post_admin_quiz (world_of cfg provider) (is_admin sid sv)
                       (store sv) reqBody in
      (lift r, {| store := st; admins := admins sv |})
  | GetQuiz => (get_quiz (store sv), sv)
  | PostQuizSubmit now reqBody =>
      let (r, st) := post_quiz_submit (cfg_engine cfg) now (store sv) reqBody in
      (lift r, {| store := st; admins := admins sv |})
  | GetAdminResults =>
      if is_admin sid sv then (get_admin_results (store sv), sv)
      else (forbidden, sv)
  | Unrouted method path => (reply 404 (RouteNotFound path method), sv)
  end.

(** The requests of a trace, in order, each with the session it comes
    from: the replies and the server afterwards. *)
Fixpoint serve (cfg : Config) (tr : list (nat * Request)) (sv : Server)
  : list Reply * Server :=
  match tr with
  | [] => ([], sv)
  | (sid, req) :: rest =>
      let (r, sv1) := handle cfg sid req sv in
      let (rs, sv2) := serve cfg rest sv1 in
      (r :: rs, sv2)
  end.

Definition after (cfg : Config) (tr : list (nat * Request)) : Server :=
  snd (serve cfg tr initial).

(** The session [sid] logs in with a request of the trace. *)
Definition logs_in (cfg : Config) (sid : nat) (entry : nat * Request) : bool :=
  match entry with
  | (sid', PostAdminLogin reqBody) =>
      Nat.eqb sid sid'
      && match admin_login cfg reqBody with
         | Return (_, granted) => granted
         | Throw _ => false
         end
  | _ => false
  end.

(** The number of results a log of requests and replies leaves, from
    [n]: a generation answered 200 clears them, a submission answered
    200 adds one. *)
Fixpoint tally (n : nat) (log : list (Request * Reply)) : nat :=
  match log with
  | [] => n
  | (PostAdminQuiz _ _, r) :: rest =>
      tally (if code r =? 200 then 0%nat else n) rest
  | (PostQuizSubmit _ _, r) :: rest =>
      tally (if code r =? 200 then S n else n) rest
  | _ :: rest => tally n rest
  end.

End App.
Import App.

(** ** Sample data *)

Module Samples.

(** An engine for the examples; its two texts stand for whatever the
    engine prints. *)
Definition sample_engine : Engine :=
  {| syntax_error_message := fun _ => lit "Unexpected token";
     number_to_string := fun _ => lit "0" |}.

Definition line_feed : jsstring := [10%N].

(** The one-question quiz of the specification, as JSON text. *)
Definition one_question_text : jsstring :=
  dq "{'quiz':[{'word':'ex','question':'Q','options':['a','b','c','d'],'correct':'b'}]}".

Definition one_question : json :=
  JObj [(lit "word", JStr (lit "ex")); (lit "question", JStr (lit "Q"));
        (lit "options", JArr [JStr (lit "a"); JStr (lit "b"); JStr (lit "c"); JStr (lit "d")]);
        (lit "correct", JStr (lit "b"))].

(** The same text inside a fenced block labelled as JSON. *)
Definition fenced_text : jsstring :=
  lit "```json" ++ line_feed ++ one_question_text ++ line_feed ++ lit "```".

Definition noisy_text : jsstring := dq "noise {'quiz':[]} trailing".

Definition empty_quiz_obj : json := JObj [(lit "quiz", JArr [])].

(** A question list whose only element is [null]. *)
Definition null_question_obj : json := JObj [(lit "quiz", JArr [JNull])].

(** A question two of whose options are the same string. *)
Definition duplicate_options_question : json :=
  JObj [(lit "word", JStr (lit "ex")); (lit "question", JStr (lit "Q"));
        (lit "options", JArr [JStr (lit "a"); JStr (lit "a"); JStr (lit "b"); JStr (lit "c")]);
        (lit "correct", JStr (lit "a"))].

Definition duplicate_options_obj : json :=
  JObj [(lit "quiz", JArr [duplicate_options_question])].

(** A world whose provider answers every request with [content]. *)
Definition world_answering (content : jsstring) : World :=
  {| engine := sample_engine;
     OPENROUTER_API_KEY := Some (lit "sk-or-key");
     axios_post := fun _ => Resolved (Some content) |}.

Definition source_text : jsstring :=
  lit "The ubiquitous heron was perched on an ephemeral sandbank.".

Definition generation_request : json := JObj [(lit "text", JStr source_text)].

Definition empty_state : State := {| currentQuiz := None; quizResults := [] |}.

Definition one_question_state : State :=
  {| currentQuiz := Some [one_question]; quizResults := [] |}.

Definition submission (name surname : jsstring) (answers : list jsstring) : json :=
  JObj [(lit "name", JStr name); (lit "surname", JStr surname);
        (lit "answers", JArr (map JStr answers))].

Definition timestamp : jsstring := lit "2024-01-01T00:00:00.000Z".

(** An object with a [toString] member of its own; no template literal
    can convert it to a string. *)
Definition hides_toString : json :=
  JObj [(lit "toString", JNum (Double.of_Z 1))].

(** A submission whose name is the empty string and whose surname is
    such an object. *)
Definition empty_name_unprintable_surname : json :=
  JObj [(lit "name", JStr []); (lit "surname", hides_toString);
        (lit "answers", JArr [JStr (lit "b")])].

(** A state with the one-question quiz and one stored result. *)
Definition state_with_result : State :=
  {| currentQuiz := Some [one_question];
     quizResults :=
       [{| name := Some (JStr (lit "Ada")); surname := Some (JStr (lit "Lovelace"));
           score := 0; total := 1; percentage := Double.of_Z 0;
           date := timestamp; detailedResults := [] |}] |}.

(** Forty copies of the sample question, and answers of which the
    first twenty-three are right. *)
Definition forty_questions : list json := repeat one_question 40.

Definition forty_state : State :=
  {| currentQuiz := Some forty_questions; quizResults := [] |}.

Definition twenty_three_right : json :=
  submission (lit "Ada") (lit "Lovelace")
    (repeat (lit "b") 23 ++ repeat (lit "c") 17).

End Samples.
Import Samples.

(** ** Further notions and sample data *)

Module Reports.

(** A question whose failure the loop can report: it is not [null] and
    its correct value, if any, can be printed in a message. *)
Definition reportable (E : Engine) (q : json) : Prop :=
  q <> JNull
  /\ forall c, field q "correct" = Some c -> exists s, ToString E c = Return s.

End Reports.
Import Reports.

Module Scenarios.

(** The error the HTTP client raises when the request times out: it
    carries the request, no response, and the code [ECONNABORTED]. *)
Definition timeout_error : exn :=
  {| err_message := lit "timeout of 30000ms exceeded";
     err_code := Some (lit "ECONNABORTED");
     err_response := None;
     err_request := true |}.

(** A world whose provider never answers in time. *)
Definition world_timing_out : World :=
  {| engine := sample_engine;
     OPENROUTER_API_KEY := Some (lit "sk-or-key");
     axios_post := fun _ => Rejected timeout_error |}.

(** A text of 1000 letters followed by [tail]. *)
Definition long_text (tail : jsstring) : jsstring :=
  repeat 97%N 1000 ++ tail.

(** A text of thirty spaces. *)
Definition blank_text : jsstring := repeat 32%N 30.

Definition sample_config : Config :=
  {| cfg_engine := sample_engine;
     cfg_OPENROUTER_API_KEY := Some (lit "sk-or-key");
     ADMIN_USERNAME := Some (lit "admin");
     ADMIN_PASSWORD := Some (lit "secret");
     NODE_ENV := None;
     ALLOWED_ORIGIN := None |}.

Definition login_request : json :=
  JObj [(lit "username", JStr (lit "admin")); (lit "password", JStr (lit "secret"))].

(** A server with the one-question quiz, in which session 7 is an
    admin. *)
Definition serving_one_question : Server :=
  {| store := one_question_state; admins := [7%nat] |}.

(** A provider that answers with the one-question quiz. *)
Definition answering_one_question (_ : jsstring) : axios_outcome :=
  Resolved (Some one_question_text).

(** A provider whose answer holds an empty question list. *)
Definition answering_noise (_ : jsstring) : axios_outcome :=
  Resolved (Some noisy_text).

(** Session 1 logs in and fails a generation, session 2 submits. *)
Definition busy_trace : list (nat * Request) :=
  [(1%nat, PostAdminLogin login_request);
   (1%nat, PostAdminQuiz answering_noise generation_request);
   (2%nat, PostQuizSubmit timestamp (submission (lit "Ada") (lit "Lovelace") [lit "b"]))].

End Scenarios.
Import Scenarios.

(** * Properties *)

(** ** JSON.parse decides every text *)

Section ParserFacts.

Lemma skip_ws_length (s : jsstring) : (List.length (skip_ws s) <= List.length s)%nat.
Proof.
  induction s as [|c r IH]; simpl; [lia|].
  destruct (is_json_ws c); simpl; lia.
Qed.

Lemma accept_length (c : code_unit) (s r : jsstring) :
  accept c s = Some r -> List.length s = S (List.length r).
Proof.
  destruct s as [|x s]; simpl; [discriminate|].
  destruct (x =? c)%N; [|discriminate].
  intros H. injection H as <-. reflexivity.
Qed.

Lemma parse_string_body_length (n : nat) :
  forall s acc str r,
    (List.length s <= n)%nat ->
    parse_string_body s acc = POk str r ->
    (List.length r < List.length s)%nat.
Proof.
  induction n as [|n IH]; intros s acc str r Hn H.
  - destruct s; [discriminate H|simpl in Hn; lia].
  - destruct s as [|c s]; [discriminate H|].
    simpl in Hn. cbn [parse_string_body] in H.
    destruct (c =? 34)%N.
    { injection H as _ <-. simpl. lia. }
    destruct (c =? 92)%N.
    { destruct s as [|e r1]; [discriminate H|].
      destruct (simple_escape e).
      - apply IH in H; simpl in *; lia.
      - destruct (e =? 117)%N; [|discriminate H].
        destruct r1 as [|h1 [|h2 [|h3 [|h4 r2]]]]; try discriminate H.
        destruct (hex4 h1 h2 h3 h4); [|discriminate H].
        apply IH in H; simpl in *; lia. }
    destruct (c <? 32)%N; [discriminate H|].
    apply IH in H; simpl in *; lia.
Qed.

Lemma parse_string_body_fuel (n : nat) :
  forall s acc, (List.length s <= n)%nat -> parse_string_body s acc <> PFuel.
Proof.
  induction n as [|n IH]; intros s acc Hn.
  - destruct s; [discriminate|simpl in Hn; lia].
  - destruct s as [|c s]; [discriminate|].
    simpl in Hn. cbn [parse_string_body].
    destruct (c =? 34)%N; [discriminate|].
    destruct (c =? 92)%N.
    { destruct s as [|e r1]; [discriminate|].
      destruct (simple_escape e).
      - apply IH; simpl in *; lia.
      - destruct (e =? 117)%N; [|discriminate].
        destruct r1 as [|h1 [|h2 [|h3 [|h4 r2]]]]; try discriminate.
        destruct (hex4 h1 h2 h3 h4); [|discriminate].
        apply IH; simpl in *; lia. }
    destruct (c <? 32)%N; [discriminate|].
    apply IH; simpl in *; lia.
Qed.

Lemma scan_digits_length (s : jsstring) :
  forall acc n v k r,
    scan_digits s acc n = (v, k, r) -> (List.length r <= List.length s)%nat.
Proof.
  induction s as [|c s IH]; intros acc n v k r H; simpl in H.
  - injection H as _ _ <-. simpl. lia.
  - destruct (is_digit c).
    + apply IH in H. simpl. lia.
    + injection H as _ _ <-. lia.
Qed.

Lemma parse_exponent_spec (neg : bool) (mant nfrac : Z) (s : jsstring) :
  parse_exponent neg mant nfrac s <> PFuel
  /\ forall d r, parse_exponent neg mant nfrac s = POk d r ->
                 (List.length r <= List.length s)%nat.
Proof.
  unfold parse_exponent.
  destruct s as [|e r0]; [split; [discriminate|intros d r H; injection H as _ <-; lia]|].
  destruct ((e =? 101) || (e =? 69))%N;
    [|split; [discriminate|intros d r H; injection H as _ <-; lia]].
  assert (Hsign : forall eneg r1,
             (match accept 45%N r0 with
              | Some r' => (true, r')
              | None => match accept 43%N r0 with
                        | Some r' => (false, r')
                        | None => (false, r0)
                        end
              end) = (eneg, r1) -> (List.length r1 <= List.length r0)%nat).
  { intros eneg r1 H.
    destruct (accept 45%N r0) as [r'|] eqn:H45.
    - injection H as _ <-. apply accept_length in H45. lia.
    - destruct (accept 43%N r0) as [r'|] eqn:H43.
      + injection H as _ <-. apply accept_length in H43. lia.
      + injection H as _ <-. lia. }
  destruct (match accept 45%N r0 with
            | Some r' => (true, r')
            | None => match accept 43%N r0 with
                      | Some r' => (false, r')
                      | None => (false, r0)
                      end
            end) as [eneg r1] eqn:Hs.
  specialize (Hsign eneg r1 eq_refl).
  destruct (scan_digits r1 0 0) as [[ev en] r2] eqn:Hscan.
  apply scan_digits_length in Hscan.
  destruct (en =? 0); split; try discriminate.
  intros d r H. injection H as _ <-. simpl. lia.
Qed.

Lemma parse_fraction_spec (neg : bool) (ipart : Z) (s : jsstring) :
  parse_fraction neg ipart s <> PFuel
  /\ forall d r, parse_fraction neg ipart s = POk d r ->
                 (List.length r <= List.length s)%nat.
Proof.
  unfold parse_fraction.
  destruct (accept 46%N s) as [r0|] eqn:Hdot.
  - apply accept_length in Hdot.
    destruct (scan_digits r0 ipart 0) as [[mant nfrac] r1] eqn:Hscan.
    apply scan_digits_length in Hscan.
    destruct (nfrac =? 0); [split; discriminate|].
    destruct (parse_exponent_spec neg mant nfrac r1) as [Hf Hl].
    split; [exact Hf|].
    intros d r H. apply Hl in H. lia.
  - exact (parse_exponent_spec neg ipart 0 s).
Qed.

Lemma parse_number_spec (s : jsstring) :
  parse_number s <> PFuel
  /\ forall d r, parse_number s = POk d r ->
                 (List.length r <= List.length s)%nat.
Proof.
  unfold parse_number.
  assert (Hsign : forall neg s1,
             (match accept 45%N s with
              | Some r => (true, r)
              | None => (false, s)
              end) = (neg, s1) -> (List.length s1 <= List.length s)%nat).
  { intros neg s1 H. destruct (accept 45%N s) as [r'|] eqn:H45.
    - injection H as _ <-. apply accept_length in H45. lia.
    - injection H as _ <-. lia. }
  destruct (match accept 45%N s with
            | Some r => (true, r)
            | None => (false, s)
            end) as [neg s1] eqn:Hs.
  specialize (Hsign neg s1 eq_refl).
  destruct s1 as [|d0 r0]; [split; discriminate|].
  destruct (is_digit d0); [|split; discriminate].
  destruct (d0 =? 48)%N.
  - destruct (parse_fraction_spec neg 0 r0) as [Hf Hl].
    split; [exact Hf|]. intros d r H. apply Hl in H. simpl in Hsign. lia.
  - destruct (scan_digits (d0 :: r0) 0 0) as [[ipart k] r1] eqn:Hscan.
    apply scan_digits_length in Hscan.
    destruct (parse_fraction_spec neg ipart r1) as [Hf Hl].
    split; [exact Hf|]. intros d r H. apply Hl in H. lia.
Qed.

Lemma expect_length (p s r : jsstring) :
  expect p s = Some r -> (List.length r <= List.length s)%nat.
Proof.
  unfold expect. destruct (starts_with p s); [|discriminate].
  intros H. injection H as <-. rewrite length_skipn. lia.
Qed.


Lemma parse_progress (fuel : nat) :
  (forall s v r, parse_value fuel s = POk v r ->
                 (List.length r <= List.length s)%nat)
  /\ (forall s acc v r, parse_elements fuel s acc = POk v r ->
                        (List.length r <= List.length s)%nat)
  /\ (forall s acc v r, parse_members fuel s acc = POk v r ->
                        (List.length r <= List.length s)%nat).
Proof.
  induction fuel as [|fuel [IHv [IHe IHm]]].
  - repeat split; intros; discriminate.
  - split; [|split].
    + intros s v r H. cbn [parse_value] in H.
      pose proof (skip_ws_length s) as Hws.
      destruct (skip_ws s) as [|c r0]; [discriminate H|]. simpl in Hws.
      pose proof (skip_ws_length r0) as Hws0.
      destruct (c =? 123)%N.
      { destruct (accept 125%N (skip_ws r0)) as [r'|] eqn:Hacc.
        - injection H as _ <-. apply accept_length in Hacc. lia.
        - apply IHm in H. lia. }
      destruct (c =? 91)%N.
      { destruct (accept 93%N (skip_ws r0)) as [r'|] eqn:Hacc.
        - injection H as _ <-. apply accept_length in Hacc. lia.
        - apply IHe in H. lia. }
      destruct (c =? 34)%N.
      { destruct (parse_string_body r0 []) as [str r'| |] eqn:Hstr;
          try discriminate H.
        injection H as _ <-.
        apply (parse_string_body_length (List.length r0)) in Hstr; lia. }
      destruct (c =? 116)%N.
      { destruct (expect (lit "rue") r0) as [r'|] eqn:Hex; [|discriminate H].
        injection H as _ <-. apply expect_length in Hex. lia. }
      destruct (c =? 102)%N.
      { destruct (expect (lit "alse") r0) as [r'|] eqn:Hex; [|discriminate H].
        injection H as _ <-. apply expect_length in Hex. lia. }
      destruct (c =? 110)%N.
      { destruct (expect (lit "ull") r0) as [r'|] eqn:Hex; [|discriminate H].
        injection H as _ <-. apply expect_length in Hex. lia. }
      destruct (parse_number (c :: r0)) as [n r'| |] eqn:Hnum; try discriminate H.
      injection H as _ <-.
      apply (proj2 (parse_number_spec (c :: r0))) in Hnum. simpl in Hnum. lia.
    + intros s acc v r H. cbn [parse_elements] in H.
      destruct (parse_value fuel s) as [v0 r0| |] eqn:Hv; try discriminate H.
      apply IHv in Hv. pose proof (skip_ws_length r0) as Hws.
      destruct (accept 44%N (skip_ws r0)) as [r'|] eqn:Hcomma.
      { apply accept_length in Hcomma. apply IHe in H. lia. }
      destruct (accept 93%N (skip_ws r0)) as [r'|] eqn:Hclose; [|discriminate H].
      injection H as _ <-. apply accept_length in Hclose. lia.
    + intros s acc v r H. cbn [parse_members] in H.
      pose proof (skip_ws_length s) as Hws.
      destruct (accept 34%N (skip_ws s)) as [r0|] eqn:Hquote; [|discriminate H].
      apply accept_length in Hquote.
      destruct (parse_string_body r0 []) as [k r1| |] eqn:Hstr; try discriminate H.
      apply (parse_string_body_length (List.length r0)) in Hstr; [|lia].
      pose proof (skip_ws_length r1) as Hws1.
      destruct (accept 58%N (skip_ws r1)) as [r2|] eqn:Hcolon; [|discriminate H].
      apply accept_length in Hcolon.
      destruct (parse_value fuel r2) as [v0 r3| |] eqn:Hv; try discriminate H.
      apply IHv in Hv. pose proof (skip_ws_length r3) as Hws3.
      destruct (accept 44%N (skip_ws r3)) as [r'|] eqn:Hcomma.
      { apply accept_length in Hcomma. apply IHm in H. lia. }
      destruct (accept 125%N (skip_ws r3)) as [r'|] eqn:Hclose; [|discriminate H].
      injection H as _ <-. apply accept_length in Hclose. lia.
Qed.

(** The parser never runs out of fuel that is twice the length of the
    text, and a little more. *)
Lemma parse_fuel (fuel : nat) :
  (forall s, (2 * List.length s + 1 <= fuel)%nat -> parse_value fuel s <> PFuel)
  /\ (forall s acc, (2 * List.length s + 2 <= fuel)%nat ->
                    parse_elements fuel s acc <> PFuel)
  /\ (forall s acc, (2 * List.length s + 2 <= fuel)%nat ->
                    parse_members fuel s acc <> PFuel).
Proof.
  induction fuel as [|fuel [IHv [IHe IHm]]].
  - repeat split; intros; lia.
  - destruct (parse_progress fuel) as [Pv _].
    split; [|split].
    + intros s Hfuel. cbn [parse_value].
      pose proof (skip_ws_length s) as Hws.
      destruct (skip_ws s) as [|c r0]; [discriminate|]. simpl in Hws.
      destruct (c =? 123)%N.
      { destruct (accept 125%N (skip_ws r0)); [discriminate|].
        apply IHm. lia. }
      destruct (c =? 91)%N.
      { destruct (accept 93%N (skip_ws r0)); [discriminate|].
        apply IHe. lia. }
      destruct (c =? 34)%N.
      { pose proof (parse_string_body_fuel (List.length r0) r0 [] (le_n _)) as Hs.
        destruct (parse_string_body r0 []); try discriminate.
        contradiction. }
      destruct (c =? 116)%N; [destruct (expect (lit "rue") r0); discriminate|].
      destruct (c =? 102)%N; [destruct (expect (lit "alse") r0); discriminate|].
      destruct (c =? 110)%N; [destruct (expect (lit "ull") r0); discriminate|].
      pose proof (proj1 (parse_number_spec (c :: r0))) as Hn.
      destruct (parse_number (c :: r0)); try discriminate. contradiction.
    + intros s acc Hfuel. cbn [parse_elements].
      pose proof (IHv s ltac:(lia)) as Hv.
      destruct (parse_value fuel s) as [v0 r0| |] eqn:Hpv;
        [|discriminate|contradiction].
      apply Pv in Hpv. pose proof (skip_ws_length r0) as Hws.
      destruct (accept 44%N (skip_ws r0)) as [r'|] eqn:Hcomma.
      { apply accept_length in Hcomma. apply IHe. lia. }
      destruct (accept 93%N (skip_ws r0)); discriminate.
    + intros s acc Hfuel. cbn [parse_members].
      pose proof (skip_ws_length s) as Hws.
      destruct (accept 34%N (skip_ws s)) as [r0|] eqn:Hquote; [|discriminate].
      apply accept_length in Hquote.
      pose proof (parse_string_body_fuel (List.length r0) r0 [] (le_n _)) as Hs.
      destruct (parse_string_body r0 []) as [k r1| |] eqn:Hstr;
        [|discriminate|contradiction].
      apply (parse_string_body_length (List.length r0)) in Hstr; [|lia].
      pose proof (skip_ws_length r1) as Hws1.
      destruct (accept 58%N (skip_ws r1)) as [r2|] eqn:Hcolon; [|discriminate].
      apply accept_length in Hcolon.
      pose proof (IHv r2 ltac:(lia)) as Hv.
      destruct (parse_value fuel r2) as [v0 r3| |] eqn:Hpv;
        [|discriminate|contradiction].
      apply Pv in Hpv. pose proof (skip_ws_length r3) as Hws3.
      destruct (accept 44%N (skip_ws r3)) as [r'|] eqn:Hcomma.
      { apply accept_length in Hcomma. apply IHm. lia. }
      destruct (accept 125%N (skip_ws r3)); discriminate.
Qed.

(** [JSON.parse] decides every text: the fuel of [parse_text] is never
    used up. *)
Lemma parse_text_decides (s : jsstring) : parse_text s <> PFuel.
Proof.
  unfold parse_text.
  pose proof (proj1 (parse_fuel (2 * List.length s + 1)) s (le_n _)) as Hv.
  destruct (parse_value (2 * List.length s + 1) s) as [v r| |];
    [|discriminate|contradiction].
  destruct (skip_ws r); discriminate.
Qed.

End ParserFacts.

(** ** Matches of the fence expression *)

Section RegexFacts.

Context {R : Type}.

Lemma star_greedy_end (c : cls) (s : jsstring) :
  forall pos (k : nat -> jsstring -> option R) x,
    star_greedy c pos s k = Some x ->
    exists pos' s', (pos <= pos')%nat /\ k pos' s' = Some x.
Proof.
  induction s as [|a s IH]; intros pos k x H; simpl in H.
  - exists pos, []. split; [lia|exact H].
  - destruct (in_class c a).
    + destruct (star_greedy c (S pos) s k) as [m|] eqn:Hrec.
      * injection H as <-. apply IH in Hrec.
        destruct Hrec as [pos' [s' [Hle Hk]]].
        exists pos', s'. split; [lia|exact Hk].
      * exists pos, (a :: s). split; [lia|exact H].
    + exists pos, (a :: s). split; [lia|exact H].
Qed.

Lemma star_lazy_end (c : cls) (s : jsstring) :
  forall pos (k : nat -> jsstring -> option R) x,
    star_lazy c pos s k = Some x ->
    exists pos' s', (pos <= pos')%nat /\ k pos' s' = Some x.
Proof.
  induction s as [|a s IH]; intros pos k x H; simpl in H.
  - destruct (k pos []) as [m|] eqn:Hk; [|discriminate H].
    injection H as <-. exists pos, []. split; [lia|exact Hk].
  - destruct (k pos (a :: s)) as [m|] eqn:Hk.
    + injection H as <-. exists pos, (a :: s). split; [lia|exact Hk].
    + destruct (in_class c a); [|discriminate H].
      apply IH in H. destruct H as [pos' [s' [Hle Hk']]].
      exists pos', s'. split; [lia|exact Hk'].
Qed.

(** A match of [r] from [pos] hands its continuation a position that is
    not before [pos]. *)
Lemma run_end (r : re) :
  forall pos s cap (k : nat -> jsstring -> option (nat * nat) -> option R) x,
    run r pos s cap k = Some x ->
    exists pos' s' cap', (pos <= pos')%nat /\ k pos' s' cap' = Some x.
Proof.
  induction r as [p|g c|a IHa b IHb|a IHa]; intros pos s cap k x H; simpl in H.
  - destruct (starts_with p s); [|discriminate H].
    eexists _, _, _. split; [|exact H]. lia.
  - destruct g.
    + apply star_greedy_end in H. destruct H as [pos' [s' [Hle Hk]]].
      exists pos', s', cap. split; assumption.
    + apply star_lazy_end in H. destruct H as [pos' [s' [Hle Hk]]].
      exists pos', s', cap. split; assumption.
  - apply IHa in H. destruct H as [pos1 [s1 [cap1 [Hle1 H]]]].
    apply IHb in H. destruct H as [pos2 [s2 [cap2 [Hle2 H]]]].
    exists pos2, s2, cap2. split; [lia|exact H].
  - apply IHa in H. destruct H as [pos1 [s1 [cap1 [Hle1 H]]]].
    eexists _, _, _. split; [|exact H]. exact Hle1.
Qed.

End RegexFacts.

Lemma search_start (r : re) (s : jsstring) :
  forall pos a b cap,
    search r pos s = Some (a, b, cap) ->
    exists n, a = (pos + n)%nat
              /\ run r a (skipn n s) None (fun e _ cap' => Some (a, e, cap'))
                 = Some (a, b, cap).
Proof.
  induction s as [|c s IH]; intros pos a b cap H; cbn [search] in H.
  - destruct (run r pos [] None (fun e _ cap' => Some (pos, e, cap'))) as [m|] eqn:Hrun;
      [|discriminate H].
    injection H as ->.
    pose proof Hrun as Hrun'.
    apply run_end in Hrun'. destruct Hrun' as [pos' [s' [cap' [_ Hk]]]].
    injection Hk as <- _ _.
    exists 0%nat. rewrite Nat.add_0_r. split; [reflexivity|exact Hrun].
  - destruct (run r pos (c :: s) None (fun e _ cap' => Some (pos, e, cap'))) as [m|] eqn:Hrun.
    + injection H as ->.
      pose proof Hrun as Hrun'.
      apply run_end in Hrun'. destruct Hrun' as [pos' [s' [cap' [_ Hk]]]].
      injection Hk as <- _ _.
      exists 0%nat. rewrite Nat.add_0_r. split; [reflexivity|exact Hrun].
    + apply IH in H. destruct H as [n [-> Hrun']].
      exists (S n). split; [lia|]. exact Hrun'.
Qed.

Lemma starts_with_cons (c : code_unit) (p s : jsstring) :
  starts_with (c :: p) s = true -> exists t, s = c :: t.
Proof.
  destruct s as [|x t]; simpl; [discriminate|].
  intros H. apply andb_prop in H. destruct H as [Hc _].
  apply N.eqb_eq in Hc. subst x. exists t. reflexivity.
Qed.

(** Element 0 of a match of the fence expression begins with the
    backquote of the opening fence. *)
Lemma fence_match_begins_with_fence (content : jsstring) (m : match_array) :
  String_match fence_re content = Some m ->
  exists t, whole m = 96%N :: t.
Proof.
  unfold String_match. intros H.
  destruct (search fence_re 0 content) as [[[a b] cap]|] eqn:Hs; [|discriminate H].
  injection H as <-. cbn [whole].
  apply search_start in Hs. destruct Hs as [n [Ha Hrun]]. simpl in Ha. subst a.
  unfold fence_re in Hrun.
  match type of Hrun with
  | run (Seq _ ?rest) _ _ _ _ = _ => remember rest as tail_re eqn:Htail
  end.
  cbn [run] in Hrun.
  destruct (starts_with (lit "```json") (skipn n content)) eqn:Hp; [|discriminate Hrun].
  apply run_end in Hrun. destruct Hrun as [pos' [s' [cap' [Hle Hk]]]].
  injection Hk as -> _.
  apply starts_with_cons in Hp. destruct Hp as [t Ht].
  unfold slice. rewrite Ht.
  change (List.length (lit "```json")) with 7%nat in Hle.
  destruct (b - n)%nat as [|d] eqn:Hd; [lia|].
  cbn [firstn]. eexists. reflexivity.
Qed.

Lemma parse_text_backquote (t : jsstring) : parse_text (96%N :: t) = PErr.
Proof.
  unfold parse_text.
  replace (2 * List.length (96%N :: t) + 1)%nat
    with (S (2 * List.length (96%N :: t))) by lia.
  cbn [parse_value skip_ws is_json_ws N.eqb Pos.eqb orb].
  reflexivity.
Qed.

(** Whenever the direct parse fails and the text holds a fenced block
    labelled as JSON, the extractor throws: it parses the block
    together with its fences. *)
Lemma extract_fenced_throws (E : Engine) (content : jsstring) (m : match_array)
    (e : exn) :
  JSON_parse E content = Throw e ->
  String_match fence_re content = Some m ->
  extract E content
  = Throw (Error (lit "Failed to parse extracted JSON: "
                    ++ syntax_error_message E (whole m))).
Proof.
  intros Hdirect Hmatch. unfold extract. rewrite Hdirect, Hmatch.
  destruct (fence_match_begins_with_fence content m Hmatch) as [t Ht].
  unfold JSON_parse. rewrite Ht, parse_text_backquote. reflexivity.
Qed.

(** ** The response extractor *)

Section Extractor.

Variable E : Engine.

(** C8: on the raw text [noise {"quiz":[]} trailing] the direct parse
    fails, the search for a fenced block finds nothing, the span from
    the first opening to the last closing brace is [{"quiz":[]}] and
    parses to the object with an empty question list, which the
    validator rejects as empty. *)
Theorem noisy_text_stages :
  (exists e, JSON_parse E noisy_text = Throw e)
  /\ parse_text noisy_text = PErr
  /\ String_match fence_re noisy_text = None
  /\ String_match brace_re noisy_text
     = Some {| whole := dq "{'quiz':[]}"; group1 := None |}
  /\ extract E noisy_text = Return empty_quiz_obj
  /\ validate E empty_quiz_obj = Throw (Error (lit "Quiz array is empty")).
Proof.
  assert (Hdirect : parse_text noisy_text = PErr) by (vm_compute; reflexivity).
  split.
  - unfold JSON_parse. rewrite Hdirect. eexists. reflexivity.
  - split; [exact Hdirect|].
    split; [vm_compute; reflexivity|].
    split; [vm_compute; reflexivity|].
    split.
    + unfold extract, JSON_parse. rewrite Hdirect.
      vm_compute. reflexivity.
    + vm_compute. reflexivity.
Qed.

(** C1, at the failing input: the text of a fenced block labelled as
    JSON does not parse as a whole, the fence expression matches it with
    the valid interior as its capture group, and yet the extractor
    parses element 0 of the match, the block with its fences, and
    throws, which fails the whole pipeline. *)
Theorem fenced_block_is_parsed_with_its_fences :
  parse_text fenced_text = PErr
  /\ String_match fence_re fenced_text
     = Some {| whole := fenced_text; group1 := Some one_question_text |}
  /\ parse_text one_question_text = POk (JObj [(lit "quiz", JArr [one_question])]) []
  /\ extract E fenced_text
     = Throw (Error (lit "Failed to parse extracted JSON: "
                       ++ syntax_error_message E fenced_text))
  /\ generateQuizFromText (world_answering fenced_text) (Some (JStr source_text))
     = Throw (Error (lit "Failed to parse extracted JSON: "
                       ++ syntax_error_message sample_engine fenced_text)).
Proof.
  assert (Hdirect : parse_text fenced_text = PErr) by (vm_compute; reflexivity).
  assert (Hmatch : String_match fence_re fenced_text
                   = Some {| whole := fenced_text; group1 := Some one_question_text |})
    by (vm_compute; reflexivity).
  split; [exact Hdirect|].
  split; [exact Hmatch|].
  split; [vm_compute; reflexivity|].
  split.
  - unfold extract, JSON_parse. rewrite Hdirect, Hmatch. cbn [whole].
    rewrite Hdirect. reflexivity.
  - vm_compute. reflexivity.
Qed.

End Extractor.

(** ** The quiz validator *)


Section Validator.

Variable E : Engine.

Lemma bind_Return {A B : Type} (c : completion A) (k : A -> completion B) (b : B) :
  bind c k = Return b -> exists a, c = Return a /\ k a = Return b.
Proof.
  destruct c as [a|e]; simpl; intros H.
  - exists a. split; [reflexivity|exact H].
  - discriminate H.
Qed.

Lemma Get_total (q : json) (k : jsstring) :
  q <> JNull -> exists v, Get q k = Return v.
Proof.
  intros Hq. destruct q; simpl; try (eexists; reflexivity).
  - contradiction.
  - destruct (JsString.eqb k (lit "length")); eexists; reflexivity.
  - destruct (JsString.eqb k (lit "length")); eexists; reflexivity.
Qed.

Lemma Get_Return_not_null (q : json) (k : jsstring) (v : jsval) :
  Get q k = Return v -> q <> JNull.
Proof.
  intros H Hq. subst q. discriminate H.
Qed.

Lemma field_Get (q : json) (k : string) :
  q <> JNull -> Get q (lit k) = Return (field q k).
Proof.
  intros Hq. unfold field.
  destruct (Get_total q (lit k) Hq) as [v Hv]. rewrite Hv. reflexivity.
Qed.

Lemma missing_fields_false (q : json) :
  missing_fields q = Return false ->
  exists w qu o c,
    Get q (lit "word") = Return (Some w) /\ truthy (Some w) = true
    /\ Get q (lit "question") = Return (Some qu) /\ truthy (Some qu) = true
    /\ Get q (lit "options") = Return (Some o) /\ truthy (Some o) = true
    /\ Get q (lit "correct") = Return (Some c) /\ truthy (Some c) = true.
Proof.
  unfold missing_fields. intros H.
  apply bind_Return in H. destruct H as [w [Hw H]].
  destruct (truthy w) eqn:Tw; simpl in H; [|discriminate H].
  apply bind_Return in H. destruct H as [qu [Hqu H]].
  destruct (truthy qu) eqn:Tqu; simpl in H; [|discriminate H].
  apply bind_Return in H. destruct H as [o [Ho H]].
  destruct (truthy o) eqn:To; simpl in H; [|discriminate H].
  apply bind_Return in H. destruct H as [c [Hc H]].
  destruct (truthy c) eqn:Tc; simpl in H; [|discriminate H].
  destruct w as [w|]; [|discriminate Tw].
  destruct qu as [qu|]; [|discriminate Tqu].
  destruct o as [o|]; [|discriminate To].
  destruct c as [c|]; [|discriminate Tc].
  exists w, qu, o, c. repeat (split; [assumption|]). assumption.
Qed.

Lemma validate_question_sound (i : nat) (q : json) :
  validate_question E i q = Return tt -> well_formed_question q.
Proof.
  unfold validate_question. intros H.
  apply bind_Return in H. destruct H as [m [Hm H]].
  destruct m; [discriminate H|].
  apply missing_fields_false in Hm.
  destruct Hm as [w [qu [o [c [Hw [Tw [Hqu [Tqu [Ho [To [Hc Tc]]]]]]]]]]].
  rewrite Ho in H. simpl in H.
  destruct o as [| | | |opts|]; try discriminate H.
  destruct (List.length opts =? 4)%nat eqn:Hlen; simpl in H; [|discriminate H].
  rewrite Hc in H. simpl in H.
  destruct (array_includes opts (Some c)) eqn:Hin; simpl in H.
  - exists w, qu, opts, c.
    apply Nat.eqb_eq in Hlen.
    repeat (split; [assumption|]). assumption.
  - destruct (ToString E c); discriminate H.
Qed.

Lemma validate_questions_sound (qs : list json) :
  forall i, validate_questions E i qs = Return tt -> Forall well_formed_question qs.
Proof.
  induction qs as [|q rest IH]; intros i H.
  - constructor.
  - simpl in H. apply bind_Return in H. destruct H as [[] [Hq Hrest]].
    constructor.
    + exact (validate_question_sound i q Hq).
    + exact (IH (S i) Hrest).
Qed.

(** What acceptance guarantees: the accepted list is the [quiz] array of
    the object, it is non-empty, and every question is well formed. *)
Lemma validate_sound (quizObj : json) (qs : list json) :
  validate E quizObj = Return qs ->
  Get quizObj (lit "quiz") = Return (Some (JArr qs)) /\ accepted qs.
Proof.
  unfold validate. intros H.
  apply bind_Return in H. destruct H as [quiz [Hquiz H]].
  destruct (negb (truthy quiz) || negb (is_array quiz)); [discriminate H|].
  destruct quiz as [[| | | |l|]|]; try discriminate H.
  destruct l as [|q rest]; [discriminate H|].
  cbn [List.length Nat.eqb] in H.
  apply bind_Return in H. destruct H as [[] [Hloop Hret]].
  injection Hret as <-.
  split; [exact Hquiz|].
  split; [discriminate|].
  exact (validate_questions_sound _ 0%nat Hloop).
Qed.

Lemma starts_with_app (p x : jsstring) : starts_with p (p ++ x) = true.
Proof.
  induction p as [|c p IH]; [reflexivity|].
  cbn [app starts_with]. rewrite N.eqb_refl, IH. reflexivity.
Qed.

Lemma missing_fields_total (q : json) :
  q <> JNull -> exists b, missing_fields q = Return b.
Proof.
  intros Hq. unfold missing_fields.
  rewrite (field_Get q "word" Hq). cbn [bind].
  destruct (negb (truthy (field q "word"))); [eexists; reflexivity|].
  rewrite (field_Get q "question" Hq). cbn [bind].
  destruct (negb (truthy (field q "question"))); [eexists; reflexivity|].
  rewrite (field_Get q "options" Hq). cbn [bind].
  destruct (negb (truthy (field q "options"))); [eexists; reflexivity|].
  rewrite (field_Get q "correct" Hq). cbn [bind].
  eexists; reflexivity.
Qed.

(** For a question that is not [null] and whose correct value can be
    printed, every failure of the loop body starts its message with the
    number of the question. *)
Lemma validate_question_error_names_question (i : nat) (q : json) (e : exn) :
  q <> JNull ->
  (forall c, field q "correct" = Some c -> exists s, ToString E c = Return s) ->
  validate_question E i q = Throw e ->
  starts_with (question_label i) (err_message e) = true.
Proof.
  intros Hq Hprint. unfold validate_question.
  destruct (missing_fields_total q Hq) as [b Hb]. rewrite Hb. cbn [bind].
  destruct b.
  { intros H. injection H as <-. apply starts_with_app. }
  rewrite (field_Get q "options" Hq). cbn [bind].
  destruct (field q "options") as [[| | | |opts|]|];
    try (intros H; injection H as <-; apply starts_with_app).
  destruct (negb (List.length opts =? 4)%nat).
  { intros H. injection H as <-. apply starts_with_app. }
  rewrite (field_Get q "correct" Hq). cbn [bind].
  destruct (negb (array_includes opts (field q "correct"))); [|discriminate].
  destruct (field q "correct") as [c|] eqn:Hc.
  - destruct (Hprint c eq_refl) as [shown Hshown]. rewrite Hshown. cbn [bind].
    intros H. injection H as <-. cbn [err_message Error].
    apply starts_with_app.
  - cbn [bind]. intros H. injection H as <-. apply starts_with_app.
Qed.

(** A failure of the loop is the failure of its first offending
    question. *)
Lemma validate_questions_first_failure (qs : list json) :
  forall i e,
    validate_questions E i qs = Throw e ->
    exists j q,
      nth_error qs j = Some q
      /\ validate_question E (i + j) q = Throw e
      /\ forall j' q', (j' < j)%nat -> nth_error qs j' = Some q' ->
                       validate_question E (i + j') q' = Return tt.
Proof.
  induction qs as [|q rest IH]; intros i e H; [discriminate H|].
  cbn [validate_questions] in H.
  destruct (validate_question E i q) as [[]|e0] eqn:Hq; cbn [bind] in H.
  - apply IH in H. destruct H as [j [q1 [Hj [Hfail Hbefore]]]].
    exists (S j), q1. split; [exact Hj|].
    split; [rewrite Nat.add_succ_r; exact Hfail|].
    intros j' q' Hlt Hq'. destruct j' as [|j'].
    + cbn in Hq'. injection Hq' as <-. rewrite Nat.add_0_r. exact Hq.
    + cbn in Hq'. rewrite Nat.add_succ_r. apply Hbefore; [lia|exact Hq'].
  - injection H as <-. exists 0%nat, q.
    split; [reflexivity|]. split; [rewrite Nat.add_0_r; exact Hq|].
    intros j' q' Hlt. lia.
Qed.

(** C3, at the failing input: a question list holding [null] makes the
    validator fail on reading [q.word]; the message that leaves the
    pipeline names no question. *)
Theorem null_question_error_names_no_question :
  validate E null_question_obj
  = Throw (Error (lit "Cannot read properties of null (reading 'word')"))
  /\ generateQuizFromText (world_answering (dq "{'quiz':[null]}"))
       (Some (JStr source_text))
     = Throw (Error (lit "Failed to generate quiz: Cannot read properties of null (reading 'word')"))
  /\ includes
       (lit "Failed to generate quiz: Cannot read properties of null (reading 'word')")
       (lit "Question") = false.
Proof.
  split; [reflexivity|].
  split; vm_compute; reflexivity.
Qed.

(** C4, refuted as stated: the validator accepts a question whose
    options hold the same string twice. *)
Lemma accepted_quiz_with_equal_options :
  exists qs,
    validate sample_engine duplicate_options_obj = Return qs
    /\ ~ Forall distinct_options qs.
Proof.
  exists [duplicate_options_question]. split; [vm_compute; reflexivity|].
  intros H. inversion H as [|q l Hq _]; subst.
  destruct Hq as [opts [Hget Hnd]].
  vm_compute in Hget. injection Hget as <-.
  inversion Hnd as [|x l Hnotin _]; subst.
  apply Hnotin. left. reflexivity.
Qed.

(** C4, amended: in every accepted quiz each question's options are an
    array of exactly four entries, one of which is the question's
    correct value. *)
Theorem accepted_options_four_with_correct (quizObj : json) (qs : list json) :
  validate E quizObj = Return qs -> Forall four_options_with_correct qs.
Proof.
  intros H. apply validate_sound in H. destruct H as [_ [_ Hall]].
  eapply Forall_impl; [|exact Hall].
  intros q [w [qu [opts [c [_ [_ [_ [_ [Ho [Hlen [Hc [_ Hin]]]]]]]]]]]].
  exists opts, c. repeat (split; [assumption|]). assumption.
Qed.

End Validator.

(** The amended C4 at the one-question quiz of the specification. *)
Lemma accepted_options_four_with_correct_witness :
  validate sample_engine (JObj [(lit "quiz", JArr [one_question])]) = Return [one_question]
  /\ Forall four_options_with_correct [one_question].
Proof.
  split.
  - vm_compute. reflexivity.
  - apply (accepted_options_four_with_correct sample_engine
             (JObj [(lit "quiz", JArr [one_question])]) [one_question]).
    vm_compute. reflexivity.
Defined.

(** ** Quiz generation and the session store *)

Section Generation.

Variable W : World.

(** The length of a string prints, so that on a string the pipeline
    goes on to its input check. *)
Lemma generateQuizFromText_string (t : jsstring) :
  generateQuizFromText W (Some (JStr t))
  = if negb (truthy (Some (JStr t))) || (List.length (trim t) <? 20)%nat
    then Throw input_error
    else
      match OPENROUTER_API_KEY W with
      | Some (_ :: _) =>
          match request_quiz W t with
          | Return quiz => Return quiz
          | Throw err => Throw (on_error err)
          end
      | _ =>
          Throw (Error (lit "API key is not configured. Please set OPENROUTER_API_KEY in your .env file."))
      end.
Proof.
  unfold generateQuizFromText, log_input_length. destruct t; reflexivity.
Qed.

(** The pipeline returns only for a string. *)
Lemma generateQuizFromText_Return_string (text : jsval) (quiz : list json) :
  generateQuizFromText W text = Return quiz -> exists t, text = Some (JStr t).
Proof.
  unfold generateQuizFromText. intros H.
  destruct (log_input_length (engine W) text) as [s|e]; cbn [bind] in H;
    [|discriminate H].
  destruct text as [[| | |t| |]|]; try discriminate H.
  exists t. reflexivity.
Qed.

(** Whatever the pipeline returns is an accepted quiz. *)
Lemma generateQuizFromText_accepted (text : jsval) (quiz : list json) :
  generateQuizFromText W text = Return quiz -> accepted quiz.
Proof.
  intros H.
  destruct (generateQuizFromText_Return_string text quiz H) as [t ->].
  rewrite generateQuizFromText_string in H.
  destruct (negb (truthy (Some (JStr t))) || (List.length (trim t) <? 20)%nat);
    [discriminate H|].
  destruct (OPENROUTER_API_KEY W) as [[|k key]|]; try discriminate H.
  destruct (request_quiz W t) as [qs|err] eqn:Hreq; [|discriminate H].
  injection H as <-.
  unfold request_quiz in Hreq.
  apply bind_Return in Hreq. destruct Hreq as [content [_ Hreq]].
  destruct content as [[|c0 c]|]; try discriminate Hreq.
  apply bind_Return in Hreq. destruct Hreq as [quizObj [_ Hval]].
  apply validate_sound in Hval. exact (proj2 Hval).
Qed.

(** The pipeline returns only for a text that is a non-empty string. *)
Lemma generateQuizFromText_text (text : jsval) (quiz : list json) :
  generateQuizFromText W text = Return quiz ->
  truthy text = true /\ is_string text = true.
Proof.
  intros H.
  destruct (generateQuizFromText_Return_string text quiz H) as [t ->].
  rewrite generateQuizFromText_string in H.
  destruct (truthy (Some (JStr t))) eqn:Ht.
  - split; reflexivity.
  - simpl in H. discriminate H.
Qed.

(** The length of a string is a number. *)
Lemma Get_string_length (t : jsstring) :
  Get (JStr t) (lit "length")
  = Return (Some (JNum (Double.of_nat (List.length t)))).
Proof. reflexivity. Qed.

(** C2: when the pipeline, run on the text of the request, throws, the
    generation request answers 500 with the message of what was thrown,
    and the current quiz and the results list stay as they were. The
    pipeline runs when the text is a non-empty string. *)
Theorem generation_failure_keeps_state
    (st : State) (reqBody : json) (text : jsstring) (err : exn) :
  Get reqBody (lit "text") = Return (Some (JStr text)) ->
  text <> [] ->
  generateQuizFromText W (Some (JStr text)) = Throw err ->
  post_admin_quiz W true st reqBody
  = (respond 500 (ErrorBody (err_message err)), st).
Proof.
  intros Hget Hne Hgen.
  unfold post_admin_quiz, requireAdmin, admin_quiz, admin_quiz_try.
  rewrite Hget. cbn [bind].
  destruct text as [|c text]; [contradiction|].
  cbn [truthy negb is_string].
  rewrite Hgen. reflexivity.
Qed.

(** C7: when the pipeline returns a quiz, the generation request makes
    it the current quiz and empties the results list, whatever the
    state was. *)
Theorem generation_success_replaces_quiz
    (st : State) (reqBody : json) (text : jsval) (quiz : list json) :
  Get reqBody (lit "text") = Return text ->
  generateQuizFromText W text = Return quiz ->
  post_admin_quiz W true st reqBody
  = (respond 200 (QuizGenerated (List.length quiz)),
     {| currentQuiz := Some quiz; quizResults := [] |}).
Proof.
  intros Hget Hgen.
  destruct (generateQuizFromText_text text quiz Hgen) as [Ht Hs].
  destruct (generateQuizFromText_Return_string text quiz Hgen) as [t ->].
  unfold post_admin_quiz, requireAdmin, admin_quiz, admin_quiz_try.
  rewrite Hget. cbn [bind].
  rewrite Ht, Hs. cbn [negb].
  destruct t as [|c t]; [discriminate Ht|].
  rewrite Get_string_length. cbn [bind interpolate ToString].
  rewrite Hgen. reflexivity.
Qed.

(** A request that does not answer 200 changes nothing. *)
Lemma admin_quiz_state (isAdmin : bool) (st st' : State) (reqBody : json)
    (resp : Response) :
  post_admin_quiz W isAdmin st reqBody = (resp, st') ->
  status resp <> 200 -> st' = st.
Proof.
  unfold post_admin_quiz, requireAdmin, admin_quiz, admin_quiz_try.
  intros H Hs.
  destruct isAdmin; [|injection H as _ <-; reflexivity].
  destruct (Get reqBody (lit "text")) as [text|e]; cbn [bind] in H;
    [|injection H as _ <-; reflexivity].
  destruct text as [t|]; [|injection H as _ <-; reflexivity].
  destruct (negb (truthy (Some t))); [injection H as _ <-; reflexivity|].
  destruct (Get t (lit "length")) as [len|e]; cbn [bind] in H;
    [|injection H as _ <-; reflexivity].
  destruct (interpolate (engine W) len) as [printed|e]; cbn [bind] in H;
    [|injection H as _ <-; reflexivity].
  destruct (negb (is_string (Some t))); [injection H as _ <-; reflexivity|].
  destruct (generateQuizFromText W (Some t)) as [quiz|e]; cbn [bind] in H.
  - injection H as <- _. exfalso. apply Hs. reflexivity.
  - injection H as _ <-. reflexivity.
Qed.

(** The generation request keeps the state invariant. *)
Lemma admin_quiz_valid_state (isAdmin : bool) (st st' : State) (reqBody : json)
    (resp : Response) :
  valid_state st ->
  post_admin_quiz W isAdmin st reqBody = (resp, st') ->
  valid_state st'.
Proof.
  unfold post_admin_quiz, requireAdmin, admin_quiz, admin_quiz_try.
  intros Hv H.
  destruct isAdmin; [|injection H as _ <-; exact Hv].
  destruct (Get reqBody (lit "text")) as [text|e]; cbn [bind] in H;
    [|injection H as _ <-; exact Hv].
  destruct text as [t|]; [|injection H as _ <-; exact Hv].
  destruct (negb (truthy (Some t))); [injection H as _ <-; exact Hv|].
  destruct (Get t (lit "length")) as [len|e]; cbn [bind] in H;
    [|injection H as _ <-; exact Hv].
  destruct (interpolate (engine W) len) as [printed|e]; cbn [bind] in H;
    [|injection H as _ <-; exact Hv].
  destruct (negb (is_string (Some t))); [injection H as _ <-; exact Hv|].
  destruct (generateQuizFromText W (Some t)) as [quiz|e] eqn:Hgen;
    cbn [bind] in H.
  - injection H as _ <-. intros q Hq. cbn in Hq. injection Hq as <-.
    exact (generateQuizFromText_accepted (Some t) quiz Hgen).
  - injection H as _ <-. exact Hv.
Qed.

End Generation.

(** C2 at a provider answer whose question list is empty. *)
Lemma generation_failure_keeps_state_witness :
  generateQuizFromText (world_answering noisy_text) (Some (JStr source_text))
  = Throw (Error (lit "Failed to generate quiz: Quiz array is empty"))
  /\ post_admin_quiz (world_answering noisy_text) true one_question_state
       generation_request
     = (respond 500 (ErrorBody (lit "Failed to generate quiz: Quiz array is empty")),
        one_question_state).
Proof.
  split.
  - vm_compute. reflexivity.
  - apply (generation_failure_keeps_state (world_answering noisy_text)
             one_question_state generation_request source_text
             (Error (lit "Failed to generate quiz: Quiz array is empty"))).
    + vm_compute. reflexivity.
    + discriminate.
    + vm_compute. reflexivity.
Defined.

(** C7 at the one-question answer of the specification. *)
Lemma generation_success_replaces_quiz_witness :
  post_admin_quiz (world_answering one_question_text) true state_with_result
    generation_request
  = (respond 200 (QuizGenerated 1),
     {| currentQuiz := Some [one_question]; quizResults := [] |}).
Proof.
  apply (generation_success_replaces_quiz (world_answering one_question_text)
           state_with_result generation_request (Some (JStr source_text)) [one_question]).
  - vm_compute. reflexivity.
  - vm_compute. reflexivity.
Defined.

(** ** Submission scoring *)


(** *** The percentage stays between 0 and 100 *)

Section Rounding.

Lemma round_half_even_le (num den N : Z) :
  0 < den -> num <= N * den -> round_half_even num den <= N.
Proof.
  intros Hden Hle. unfold round_half_even.
  pose proof (Z.div_mod num den ltac:(lia)) as Hdm.
  pose proof (Z.mod_pos_bound num den Hden) as Hmod.
  assert (Hq : num / den <= N).
  { apply Z.div_le_upper_bound; lia. }
  destruct (Z.eq_dec (num / den) N) as [Heq|Hne].
  - assert (Hrem : num mod den = 0) by nia.
    destruct (Z.compare_spec (2 * (num mod den)) den);
      [destruct (Z.even (num / den))| |]; lia.
  - destruct (2 * (num mod den) ?= den); [destruct (Z.even (num / den))| |]; lia.
Qed.

Lemma round_half_even_ge (num den N : Z) :
  0 < den -> N * den <= num -> N <= round_half_even num den.
Proof.
  intros Hden Hle. unfold round_half_even.
  assert (Hq : N <= num / den).
  { apply Z.div_le_lower_bound; lia. }
  destruct (2 * (num mod den) ?= den); [destruct (Z.even (num / den))| |]; lia.
Qed.

Lemma floor_log2_le (p q : Z) : floor_log2 p q <= Z.log2 p - Z.log2 q.
Proof.
  unfold floor_log2.
  destruct (if 0 <=? Z.log2 p - Z.log2 q
            then q * 2 ^ (Z.log2 p - Z.log2 q) <=? p
            else q <=? p * 2 ^ (- (Z.log2 p - Z.log2 q))); lia.
Qed.

(** A quotient that is not too large rounds to a finite double with a
    non-positive exponent, whose mantissa is the rounded scaled
    quotient. *)
Lemma round_rne_finite (neg : bool) (p q : Z) :
  0 < q -> Z.log2 p - Z.log2 q <= 52 ->
  exists sc, sc <= 0
             /\ round_rne neg p q
                = Fin neg (round_half_even (p * 2 ^ (- sc)) q) sc.
Proof.
  intros Hq Hlog. unfold round_rne.
  pose proof (floor_log2_le p q) as Hfl.
  set (scale := Z.max (floor_log2 p q - 52) (-1074)).
  assert (Hscale : scale <= 0) by (unfold scale; lia).
  exists scale. split; [exact Hscale|].
  replace (971 <? scale) with false by (symmetry; apply Z.ltb_ge; lia).
  replace (scale =? 971) with false by (symmetry; apply Z.eqb_neq; lia).
  cbn [orb andb].
  destruct (0 <=? scale) eqn:H0.
  - apply Z.leb_le in H0. assert (scale = 0) as -> by lia.
    cbn [Z.opp]. rewrite Z.pow_0_r, !Z.mul_1_r. reflexivity.
  - reflexivity.
Qed.

(** The double of a positive integer below [2^53] is that integer. *)
Lemma of_Z_exact (n : Z) :
  0 < n < 2 ^ 53 ->
  exists sc, sc <= 0 /\ of_Z n = Fin false (n * 2 ^ (- sc)) sc.
Proof.
  intros Hn. unfold of_Z.
  replace (n =? 0) with false by (symmetry; apply Z.eqb_neq; lia).
  replace (n <? 0) with false by (symmetry; apply Z.ltb_ge; lia).
  rewrite Z.abs_eq by lia.
  destruct (round_rne_finite false n 1) as [sc [Hsc Hr]]; [lia| |].
  - cbn [Z.log2]. assert (Z.log2 n < 53) by (apply Z.log2_lt_pow2; lia). lia.
  - exists sc. split; [exact Hsc|]. rewrite Hr. f_equal.
    unfold round_half_even. rewrite Z.mod_1_r, Z.div_1_r. reflexivity.
Qed.

Lemma pow2_pos (k : Z) : 0 <= k -> 0 < 2 ^ k.
Proof. intros Hk. apply Z.pow_pos_nonneg; lia. Qed.

(** [score / total] for [0 < score <= total]: a finite double between 0
    and 1. *)
Lemma div_of_Z_le_1 (s t : Z) :
  0 < s <= t -> t < 2 ^ 53 ->
  exists m sc, Double.div (of_Z s) (of_Z t) = Fin false m sc
               /\ sc <= 0 /\ 0 <= m <= 2 ^ (- sc).
Proof.
  intros Hs Ht.
  destruct (of_Z_exact s ltac:(lia)) as [ea [Hea Hsa]].
  destruct (of_Z_exact t ltac:(lia)) as [eb [Heb Hsb]].
  rewrite Hsa, Hsb. cbn [Double.div xorb].
  pose proof (pow2_pos (- ea) ltac:(lia)) as Pa.
  pose proof (pow2_pos (- eb) ltac:(lia)) as Pb.
  replace (t * 2 ^ (- eb) =? 0) with false by (symmetry; apply Z.eqb_neq; nia).
  replace (s * 2 ^ (- ea) =? 0) with false by (symmetry; apply Z.eqb_neq; nia).
  set (p := s * 2 ^ (- ea) * 2 ^ Z.max (ea - eb) 0).
  set (q := t * 2 ^ (- eb) * 2 ^ Z.max (eb - ea) 0).
  assert (Hpq : p * t = q * s).
  { assert (He : 2 ^ (- ea) * 2 ^ Z.max (ea - eb) 0
                 = 2 ^ (- eb) * 2 ^ Z.max (eb - ea) 0).
    { rewrite <- !Z.pow_add_r by lia. f_equal. lia. }
    unfold p, q.
    transitivity (s * t * (2 ^ (- ea) * 2 ^ Z.max (ea - eb) 0)); [ring|].
    rewrite He. ring. }
  pose proof (pow2_pos (Z.max (ea - eb) 0) ltac:(lia)) as Pc.
  pose proof (pow2_pos (Z.max (eb - ea) 0) ltac:(lia)) as Pd.
  assert (Hp : 0 < p) by (unfold p; nia).
  assert (Hq : 0 < q) by (unfold q; nia).
  assert (Hle : p <= q) by nia.
  destruct (round_rne_finite false p q Hq) as [sc [Hsc Hr]].
  { pose proof (Z.log2_le_mono p q Hle). lia. }
  exists (round_half_even (p * 2 ^ (- sc)) q), sc.
  split; [exact Hr|]. split; [exact Hsc|].
  pose proof (pow2_pos (- sc) ltac:(lia)) as Ps.
  split.
  - apply round_half_even_ge; [exact Hq|nia].
  - apply round_half_even_le; [exact Hq|nia].
Qed.


Lemma of_Z_100 : of_Z 100 = Fin false (100 * 2 ^ 46) (-46).
Proof. vm_compute. reflexivity. Qed.

(** A double between 0 and 1, times 100: a finite double between 0 and
    100. *)
Lemma mul_100_le_100 (m sc : Z) :
  sc <= 0 -> 0 <= m <= 2 ^ (- sc) ->
  exists m' sc', Double.mul (Fin false m sc) (of_Z 100) = Fin false m' sc'
                 /\ sc' <= 0 /\ 0 <= m' <= 100 * 2 ^ (- sc').
Proof.
  intros Hsc Hm. rewrite of_Z_100. cbn [Double.mul xorb].
  replace (100 * 2 ^ 46 =? 0) with false by reflexivity. rewrite orb_false_r.
  destruct (m =? 0) eqn:Hm0.
  { exists 0, 0. split; [reflexivity|]. split; [lia|]. cbn. lia. }
  apply Z.eqb_neq in Hm0.
  rewrite Z.max_r by lia. rewrite Z.max_l by lia. rewrite Z.pow_0_r, Z.mul_1_r.
  set (q := 2 ^ (- (sc + -46))).
  pose proof (pow2_pos (- sc) ltac:(lia)) as Ps.
  assert (Hq : 0 < q) by (apply pow2_pos; lia).
  assert (Hqe : q = 2 ^ (- sc) * 2 ^ 46).
  { unfold q. rewrite <- Z.pow_add_r by lia. f_equal. lia. }
  assert (Hle : m * (100 * 2 ^ 46) <= 100 * q) by (rewrite Hqe; nia).
  destruct (round_rne_finite false (m * (100 * 2 ^ 46)) q Hq) as [sc' [Hsc' Hr]].
  { assert (H128 : m * (100 * 2 ^ 46) <= q * 2 ^ 7) by lia.
    pose proof (Z.log2_le_mono _ _ H128) as Hmono.
    rewrite Z.log2_mul_pow2 in Hmono by lia. lia. }
  exists (round_half_even (m * (100 * 2 ^ 46) * 2 ^ (- sc')) q), sc'.
  split; [exact Hr|]. split; [exact Hsc'|].
  pose proof (pow2_pos (- sc') ltac:(lia)) as Ps'.
  split.
  - apply round_half_even_ge; [exact Hq|nia].
  - apply round_half_even_le; [exact Hq|nia].
Qed.

Lemma small_integers_exact (r : Z) :
  0 < r <= 100 -> to_Z (of_Z r) = Some r.
Proof.
  intros Hr.
  assert (Hall : forallb (fun n => match to_Z (of_Z (Z.of_nat n)) with
                                   | Some z => z =? Z.of_nat n
                                   | None => false
                                   end) (seq 1 100) = true)
    by (vm_compute; reflexivity).
  rewrite forallb_forall in Hall.
  specialize (Hall (Z.to_nat r)).
  rewrite Z2Nat.id in Hall by lia.
  assert (Hin : In (Z.to_nat r) (seq 1 100)) by (apply in_seq; lia).
  specialize (Hall Hin).
  destruct (to_Z (of_Z r)) as [z|]; [|discriminate Hall].
  apply Z.eqb_eq in Hall. subst z. reflexivity.
Qed.

(** [Math.round] of a double between 0 and 100 is an integer between 0
    and 100. *)
Lemma Math_round_le_100 (m sc : Z) :
  sc <= 0 -> 0 <= m <= 100 * 2 ^ (- sc) ->
  exists z, to_Z (Math_round (Fin false m sc)) = Some z /\ 0 <= z <= 100.
Proof.
  intros Hsc Hm. cbn [Math_round].
  destruct (0 <=? sc) eqn:H0.
  - apply Z.leb_le in H0. assert (sc = 0) as -> by lia.
    cbn in Hm. exists m. split; [|lia].
    cbn [to_Z Z.leb Z.compare]. rewrite Z.pow_0_r. f_equal. lia.
  - apply Z.leb_gt in H0.
    pose proof (pow2_pos (- sc) ltac:(lia)) as Ps.
    set (r := (2 * m + 2 ^ (- sc)) / 2 ^ (- sc + 1)).
    assert (Hpow : 2 ^ (- sc + 1) = 2 * 2 ^ (- sc)).
    { rewrite Z.pow_add_r by lia. lia. }
    assert (Hr : 0 <= r <= 100).
    { unfold r. rewrite Hpow. split.
      - apply Z.div_pos; lia.
      - apply Z.lt_succ_r. apply Z.div_lt_upper_bound; lia. }
    destruct (r =? 0) eqn:Hr0.
    + exists 0. split; [reflexivity|lia].
    + apply Z.eqb_neq in Hr0. exists r.
      split; [apply small_integers_exact; lia|exact Hr].
Qed.

(** The percentage of an accepted submission is an integer between 0
    and 100. *)
Lemma percentage_in_range (score len : nat) :
  (0 < len)%nat -> (score <= len)%nat -> Z.of_nat len < 2 ^ 53 ->
  exists z, to_Z (compute_percentage score len) = Some z /\ 0 <= z <= 100.
Proof.
  intros Hlen Hscore Hbound. unfold compute_percentage, of_nat.
  destruct score as [|score].
  - destruct (of_Z_exact (Z.of_nat len) ltac:(lia)) as [eb [Heb Hsb]].
    rewrite Hsb. change (of_Z (Z.of_nat 0)) with (Fin false 0 0).
    cbn [Double.div xorb].
    pose proof (pow2_pos (- eb) ltac:(lia)) as Pb.
    replace (Z.of_nat len * 2 ^ (- eb) =? 0) with false
      by (symmetry; apply Z.eqb_neq; nia).
    cbn [Z.eqb]. exists 0. split; [vm_compute; reflexivity|lia].
  - destruct (div_of_Z_le_1 (Z.of_nat (S score)) (Z.of_nat len) ltac:(lia) Hbound)
      as [m [sc [Hdiv [Hsc Hm]]]].
    rewrite Hdiv.
    destruct (mul_100_le_100 m sc Hsc Hm) as [m' [sc' [Hmul [Hsc' Hm']]]].
    rewrite Hmul.
    exact (Math_round_le_100 m' sc' Hsc' Hm').
Qed.

End Rounding.

Section Scoring.

Variable E : Engine.


Lemma item_Return (answers : json) (i : nat) (a : jsval) :
  GetIndex answers i = Return a -> item answers i = a.
Proof.
  intros H. unfold item. rewrite H. reflexivity.
Qed.

Lemma field_Return (q : json) (k : string) (v : jsval) :
  Get q (lit k) = Return v -> field q k = v.
Proof.
  intros H. unfold field. rewrite H. reflexivity.
Qed.

Lemma well_formed_not_null (q : json) : well_formed_question q -> q <> JNull.
Proof.
  intros [w [qu [opts [c [Hw _]]]]]. exact (Get_Return_not_null _ _ _ Hw).
Qed.

Lemma truthy_not_null (a : json) : truthy (Some a) = true -> a <> JNull.
Proof.
  intros H Ha. subst a. discriminate H.
Qed.

(** A falsy value is a primitive, and prints. *)
Lemma falsy_prints (v : jsval) : truthy v = false -> prints E v.
Proof.
  destruct v as [[| | | | |]|]; intros H; try discriminate H;
    eexists; reflexivity.
Qed.


(** What equals a value strictly is a primitive, and prints. *)
Lemma matching_prints (a c : jsval) : strict_equals a c = true -> prints E a.
Proof.
  destruct a as [[| | | | |]|]; intros H; try (eexists; reflexivity);
    destruct c as [[| | | | |]|]; discriminate H.
Qed.


(** What one call of the callback returns, when it returns. *)
Lemma grade_question_Return (answers q : json) (i : nat) (g g' : Grading) :
  grade_question E answers q i g = Return g' ->
  g' = {| g_score := g_score g
                     + List.length (filter isCorrect [graded answers i q]);
          g_wrongAnswers := g_wrongAnswers g
                            ++ map wrong_of (filter is_wrong [graded answers i q]);
          g_detailedResults := g_detailedResults g ++ [graded answers i q] |}.
Proof.
  unfold grade_question. intros H.
  apply bind_Return in H. destruct H as [a [Ha H]].
  apply bind_Return in H. destruct H as [c [Hc H]].
  cbv zeta in H.
  apply bind_Return in H. destruct H as [logged [_ H]].
  apply bind_Return in H. destruct H as [qq [Hqq H]].
  apply bind_Return in H. destruct H as [qw [Hqw H]].
  apply bind_Return in H. destruct H as [qo [Hqo H]].
  unfold is_wrong, graded. cbn [filter isCorrect].
  rewrite (item_Return answers i a Ha), (field_Return q "correct" c Hc),
    (field_Return q "question" qq Hqq), (field_Return q "word" qw Hqw),
    (field_Return q "options" qo Hqo).
  destruct (strict_equals a c); injection H as <-; cbn [negb map List.length].
  - rewrite app_nil_r. reflexivity.
  - rewrite Nat.add_0_r. reflexivity.
Qed.

(** A call of the callback that returns has printed the answer, when
    the answer is wrong. *)
Lemma grade_question_Return_prints (answers q : json) (i : nat)
    (g g' : Grading) :
  grade_question E answers q i g = Return g' -> prints E (item answers i).
Proof.
  unfold grade_question. intros H.
  apply bind_Return in H. destruct H as [a [Ha H]].
  apply bind_Return in H. destruct H as [c [Hc H]].
  cbv zeta in H.
  apply bind_Return in H. destruct H as [logged [Hlog _]].
  rewrite (item_Return answers i a Ha).
  destruct (strict_equals a c) eqn:Heq.
  - exact (matching_prints a c Heq).
  - apply bind_Return in Hlog. destruct Hlog as [answered [Hans _]].
    exists answered. exact Hans.
Qed.


Lemma graded_from_nil (answers : json) (i : nat) (g : Grading) :
  graded_from answers i [] g = g.
Proof.
  unfold graded_from. cbn. rewrite Nat.add_0_r, !app_nil_r.
  destruct g; reflexivity.
Qed.

Lemma graded_from_cons (answers : json) (i : nat) (q : json)
    (rest : list json) (g : Grading) :
  graded_from answers (S i) rest (graded_from answers i [q] g)
  = graded_from answers i (q :: rest) g.
Proof.
  unfold graded_from.
  cbn [g_score g_wrongAnswers g_detailedResults details].
  change (graded answers i q :: details answers (S i) rest)
    with ([graded answers i q] ++ details answers (S i) rest).
  rewrite !filter_app, map_app, length_app, <- !app_assoc, Nat.add_assoc.
  reflexivity.
Qed.

(** The whole loop, when it returns. *)
Lemma grade_Return (answers : json) (quiz : list json) :
  forall (i : nat) (g g' : Grading),
    grade E answers i quiz g = Return g' ->
    g' = graded_from answers i quiz g.
Proof.
  induction quiz as [|q rest IH]; intros i g g' H.
  - cbn in H. injection H as <-. symmetry. apply graded_from_nil.
  - cbn [grade] in H. apply bind_Return in H. destruct H as [g1 [H1 H]].
    apply grade_question_Return in H1. apply IH in H.
    rewrite <- graded_from_cons. subst g' g1. reflexivity.
Qed.

(** The loop returns only when every answer printed. *)
Lemma grade_Return_prints (answers : json) (quiz : list json) :
  forall (i : nat) (g g' : Grading),
    grade E answers i quiz g = Return g' ->
    forall j, (j < List.length quiz)%nat -> prints E (item answers (i + j)).
Proof.
  induction quiz as [|q rest IH]; intros i g g' H j Hj.
  - cbn in Hj. lia.
  - cbn [grade] in H. apply bind_Return in H. destruct H as [g1 [H1 H]].
    destruct j as [|j].
    + rewrite Nat.add_0_r. exact (grade_question_Return_prints _ _ _ _ _ H1).
    + rewrite Nat.add_succ_r.
      apply (IH (S i) g1 g' H j). cbn in Hj. lia.
Qed.


Lemma details_length (answers : json) (quiz : list json) :
  forall i, List.length (details answers i quiz) = List.length quiz.
Proof.
  induction quiz as [|q rest IH]; intros i; cbn; [reflexivity|].
  rewrite IH. reflexivity.
Qed.

Lemma details_nth (answers : json) (quiz : list json) :
  forall i j q,
    nth_error quiz j = Some q ->
    nth_error (details answers i quiz) j = Some (graded answers (i + j) q).
Proof.
  induction quiz as [|q0 rest IH]; intros i j q Hj.
  - destruct j; discriminate Hj.
  - destruct j as [|j]; cbn in Hj |- *.
    + injection Hj as <-. rewrite Nat.add_0_r. reflexivity.
    + rewrite (IH (S i) j q Hj). rewrite Nat.add_succ_r. reflexivity.
Qed.

(** The score is the number of indices whose answer equals the correct
    value. *)
Lemma correct_details_count (answers : json) (quiz : list json) :
  List.length (filter isCorrect (details answers 0 quiz))
  = count_matching answers quiz.
Proof.
  unfold count_matching.
  enough (Hgen : forall rest pre,
             List.length (filter isCorrect (details answers (List.length pre) rest))
             = List.length (filter (answer_matches answers (pre ++ rest))
                              (seq (List.length pre) (List.length rest)))).
  { exact (Hgen quiz []). }
  induction rest as [|q rest IH]; intros pre.
  - reflexivity.
  - cbn [details List.length seq filter].
    assert (Hq : answer_matches answers (pre ++ q :: rest) (List.length pre)
                 = isCorrect (graded answers (List.length pre) q)).
    { unfold answer_matches. rewrite nth_error_app2 by lia.
      rewrite Nat.sub_diag. reflexivity. }
    rewrite Hq.
    specialize (IH (pre ++ [q])).
    rewrite <- app_assoc, length_app in IH. cbn [List.length app] in IH.
    rewrite Nat.add_1_r in IH.
    destruct (isCorrect (graded answers (List.length pre) q)); cbn [List.length];
      rewrite IH; reflexivity.
Qed.

End Scoring.

Section Submission.

Variable E : Engine.
Variable now : jsstring.

Lemma accepted_no_null (quiz : list json) :
  accepted quiz -> Forall (fun q => q <> JNull) quiz.
Proof.
  intros [_ Hall]. eapply Forall_impl; [|exact Hall].
  intros q Hq. exact (well_formed_not_null q Hq).
Qed.


(** The log lines of the name and the surname return exactly when the
    value prints. *)
Lemma log_provided_Return (v : jsval) :
  prints E v <-> exists s, log_provided E v = Return s.
Proof.
  unfold log_provided. destruct (truthy v) eqn:Hv.
  - reflexivity.
  - split; intros _; [eexists; reflexivity|exact (falsy_prints E v Hv)].
Qed.

(** The log line of the answer count returns exactly when the count
    prints. *)
Lemma log_answers_count_Return (answers : jsval) :
  match answers with
  | Some ans => prints E (field ans "length")
  | None => True
  end
  <-> exists s, log_answers_count E answers = Return s.
Proof.
  unfold log_answers_count. destruct answers as [ans|].
  - destruct (truthy (Some ans)) eqn:Hv.
    + rewrite (field_Get ans "length" (truthy_not_null ans Hv)). cbn [bind].
      reflexivity.
    + split; intros _; [eexists; reflexivity|].
      destruct ans as [| | | | |]; try discriminate Hv;
        try (exists (lit "undefined"); reflexivity).
      eexists; reflexivity.
  - split; intros _; [eexists; reflexivity|exact I].
Qed.


(** What a submission answered 200 has done: it passed the guards, and
    it appended the record of its answers. *)
Lemma post_quiz_submit_accepted (st : State) (reqBody : json) :
  status (fst (post_quiz_submit E now st reqBody)) = 200 ->
  exists name surname ans quiz,
    Get reqBody (lit "name") = Return name
    /\ Get reqBody (lit "surname") = Return surname
    /\ Get reqBody (lit "answers") = Return (Some ans)
    /\ currentQuiz st = Some quiz
    /\ passes_guards st name surname (Some ans) = true
    /\ loggable E st name surname (Some ans)
    /\ post_quiz_submit E now st reqBody
       = (respond 200
            (Submitted (score (result_of now name surname ans quiz))
               (total (result_of now name surname ans quiz))
               (percentage (result_of now name surname ans quiz))
               (map wrong_of
                  (filter is_wrong
                     (detailedResults (result_of now name surname ans quiz))))),
          {| currentQuiz := currentQuiz st;
             quizResults := quizResults st
                            ++ [result_of now name surname ans quiz] |}).
Proof.
  unfold post_quiz_submit, quiz_submit_body.
  destruct (Get reqBody (lit "name")) as [name|e]; [|discriminate].
  cbn [bind].
  destruct (Get reqBody (lit "surname")) as [surname|e]; [|discriminate].
  cbn [bind].
  destruct (Get reqBody (lit "answers")) as [answers|e]; [|discriminate].
  cbn [bind].
  destruct (log_provided E name) as [s1|e] eqn:Pn; [|discriminate].
  cbn [bind].
  destruct (log_provided E surname) as [s2|e] eqn:Ps; [|discriminate].
  cbn [bind].
  destruct (log_answers_count E answers) as [s3|e] eqn:Pa; [|discriminate].
  cbn [bind].
  destruct (negb (truthy name) || negb (truthy surname) || negb (truthy answers))
    eqn:Hguard; [discriminate|].
  destruct (currentQuiz st) as [quiz|] eqn:Hquiz; [|discriminate].
  destruct answers as [ans|]; [|discriminate].
  destruct (Get ans (lit "length")) as [len|e] eqn:Hlen; [|discriminate].
  cbn [bind].
  destruct (negb (strict_equals len (Some (JNum (Double.of_nat (List.length quiz))))))
    eqn:Hmatch; [discriminate|].
  destruct (grade E ans 0 quiz _) as [g|e] eqn:Hgrade; [|discriminate].
  cbn [bind]. intros _.
  pose proof (grade_Return_prints E ans quiz 0 _ g Hgrade) as Hprint.
  apply grade_Return in Hgrade. subst g.
  exists name, surname, ans, quiz.
  split; [reflexivity|]. split; [reflexivity|]. split; [reflexivity|].
  split; [reflexivity|].
  apply orb_false_elim in Hguard. destruct Hguard as [Hguard Tans].
  apply orb_false_elim in Hguard. destruct Hguard as [Tname Tsurname].
  apply negb_false_iff in Tname, Tsurname, Tans, Hmatch.
  split; [|split].
  - unfold passes_guards, length_matches.
    rewrite Hquiz, Tname, Tsurname, Tans, (field_Return ans "length" len Hlen),
      Hmatch.
    reflexivity.
  - split.
    + split; [|split].
      * apply log_provided_Return. exists s1. exact Pn.
      * apply log_provided_Return. exists s2. exact Ps.
      * apply (log_answers_count_Return (Some ans)). exists s3. exact Pa.
    + intros quiz' ans' Hq' Ha'. rewrite Hquiz in Hq'.
      injection Hq' as <-. injection Ha' as <-.
      intros j Hj. exact (Hprint j Hj).
  - unfold graded_from, result_of.
    cbn [g_score g_wrongAnswers g_detailedResults Nat.add app
         score total percentage detailedResults].
    reflexivity.
Qed.

(** An accepted submission scores the number of matching indices. *)
Lemma submission_score_counts (name surname : jsval) (ans : json)
    (quiz : list json) :
  score (result_of now name surname ans quiz) = count_matching ans quiz.
Proof.
  unfold result_of. cbn [score]. apply correct_details_count.
Qed.

(** The percentage of the record of an accepted submission is an
    integer between 0 and 100 (for a quiz shorter than [2^53], as every
    array is). *)
Lemma result_percentage_in_range (name surname : jsval) (ans : json)
    (quiz : list json) :
  quiz <> [] -> Z.of_nat (List.length quiz) < 2 ^ 53 ->
  exists z, Double.to_Z (percentage (result_of now name surname ans quiz)) = Some z
            /\ 0 <= z <= 100.
Proof.
  intros Hne Hbound. unfold result_of. cbn [percentage].
  apply percentage_in_range.
  - destruct quiz; [contradiction|cbn; lia].
  - rewrite <- (details_length ans quiz 0%nat). apply filter_length_le.
  - exact Hbound.
Qed.


(** A submission never changes the current quiz, so it keeps the state
    invariant. *)
Lemma post_quiz_submit_keeps_quiz (st : State) (reqBody : json) :
  currentQuiz (snd (post_quiz_submit E now st reqBody)) = currentQuiz st.
Proof.
  unfold post_quiz_submit, quiz_submit_body.
  destruct (Get reqBody (lit "name")) as [name|e]; [|reflexivity]. cbn [bind].
  destruct (Get reqBody (lit "surname")) as [surname|e]; [|reflexivity]. cbn [bind].
  destruct (Get reqBody (lit "answers")) as [answers|e]; [|reflexivity]. cbn [bind].
  destruct (log_provided E name) as [s1|e]; [|reflexivity]. cbn [bind].
  destruct (log_provided E surname) as [s2|e]; [|reflexivity]. cbn [bind].
  destruct (log_answers_count E answers) as [s3|e]; [|reflexivity]. cbn [bind].
  destruct (negb (truthy name) || negb (truthy surname) || negb (truthy answers));
    [reflexivity|].
  destruct (currentQuiz st) as [quiz|] eqn:Hquiz; [|exact Hquiz].
  destruct answers as [ans|]; [|exact Hquiz].
  destruct (Get ans (lit "length")) as [len|e]; [|exact Hquiz]. cbn [bind].
  destruct (negb (strict_equals len (Some (JNum (Double.of_nat (List.length quiz))))));
    [exact Hquiz|].
  destruct (grade E ans 0 quiz _) as [g|e]; [reflexivity|exact Hquiz].
Qed.

(** A submission whose name or surname is the empty string or absent is
    answered 400 with the missing-fields message and changes nothing,
    when the values logged ahead of the guards print. *)
Lemma empty_name_or_surname_rejected_when_logged (st : State) (reqBody : json)
    (name surname answers : jsval) :
  Get reqBody (lit "name") = Return name ->
  Get reqBody (lit "surname") = Return surname ->
  Get reqBody (lit "answers") = Return answers ->
  header_prints E name surname answers ->
  name = Some (JStr []) \/ name = None
  \/ surname = Some (JStr []) \/ surname = None ->
  post_quiz_submit E now st reqBody
  = (respond 400 (ErrorBody (lit "Name, surname, and answers required")), st).
Proof.
  intros Hn Hs Ha [Pn [Ps Pa]] Hempty.
  unfold post_quiz_submit, quiz_submit_body.
  rewrite Hn, Hs, Ha. cbn [bind].
  apply log_provided_Return in Pn. destruct Pn as [s1 Pn].
  apply log_provided_Return in Ps. destruct Ps as [s2 Ps].
  apply log_answers_count_Return in Pa. destruct Pa as [s3 Pa].
  rewrite Pn, Ps, Pa. cbn [bind].
  assert (Hguard : negb (truthy name) || negb (truthy surname)
                   || negb (truthy answers) = true).
  { destruct Hempty as [ -> | [ -> | [ -> | -> ] ] ]; cbn [truthy negb orb];
      try reflexivity; destruct (truthy name); reflexivity. }
  rewrite Hguard. reflexivity.
Qed.


End Submission.

Section EmptyAnswer.

Variable E : Engine.
Variable now : jsstring.

Lemma truthy_differs_from_empty (c : json) :
  truthy (Some c) = true -> strict_equals (Some (JStr [])) (Some c) = false.
Proof.
  destruct c as [| | |s| |]; try reflexivity.
  destruct s; [discriminate|reflexivity].
Qed.

(** C9: in an accepted submission, one answered 200, an answer that is
    the empty string is recorded as ['No answer'] in the detailed entry
    and in a wrong-answer entry of its question, and the question is
    scored incorrect. *)
Theorem empty_answer_recorded_as_no_answer (st : State) (reqBody : json)
    (ans : json) (quiz : list json) (i : nat) (q : json) :
  valid_state st ->
  Get reqBody (lit "answers") = Return (Some ans) ->
  currentQuiz st = Some quiz ->
  nth_error quiz i = Some q ->
  GetIndex ans i = Return (Some (JStr [])) ->
  status (fst (post_quiz_submit E now st reqBody)) = 200 ->
  exists r wrong d w,
    post_quiz_submit E now st reqBody
    = (respond 200 (Submitted (score r) (total r) (percentage r) wrong),
       {| currentQuiz := currentQuiz st; quizResults := quizResults st ++ [r] |})
    /\ nth_error (detailedResults r) i = Some d
    /\ questionNumber d = (i + 1)%nat
    /\ userAnswer d = Some (JStr (lit "No answer"))
    /\ isCorrect d = false
    /\ In w wrong
    /\ wa_questionNumber w = (i + 1)%nat
    /\ wa_userAnswer w = Some (JStr (lit "No answer")).
Proof.
  intros Hv Ha Hquiz Hq Hitem H200.
  destruct (post_quiz_submit_accepted E now st reqBody H200)
    as [name [surname [ans' [quiz' [_ [_ [Ha' [Hquiz' [_ [_ Hpost]]]]]]]]]].
  rewrite Ha in Ha'. injection Ha' as <-.
  rewrite Hquiz in Hquiz'. injection Hquiz' as <-.
  remember (result_of now name surname ans quiz) as r eqn:Hr.
  assert (Hi : item ans i = Some (JStr [])) by (unfold item; rewrite Hitem; reflexivity).
  assert (Hwf : well_formed_question q).
  { destruct (Hv quiz Hquiz) as [_ Hall].
    rewrite Forall_forall in Hall. apply Hall.
    exact (nth_error_In quiz i Hq). }
  assert (Hwrong : isCorrect (graded ans i q) = false).
  { destruct Hwf as [w [qu [opts [c [_ [_ [_ [_ [_ [_ [Hc [Tc _]]]]]]]]]]]].
    cbn [isCorrect graded]. rewrite Hi. unfold field. rewrite Hc.
    exact (truthy_differs_from_empty c Tc). }
  assert (Hd : nth_error (detailedResults r) i = Some (graded ans i q)).
  { subst r. cbn [detailedResults result_of].
    exact (details_nth ans quiz 0%nat i q Hq). }
  exists r, (map wrong_of (filter is_wrong (detailedResults r))),
    (graded ans i q), (wrong_of (graded ans i q)).
  split; [exact Hpost|].
  split; [exact Hd|].
  split; [reflexivity|].
  split; [cbn [userAnswer graded]; rewrite Hi; reflexivity|].
  split; [exact Hwrong|].
  split.
  - apply in_map. apply filter_In. split.
    + exact (nth_error_In _ i Hd).
    + unfold is_wrong. rewrite Hwrong. reflexivity.
  - split; [reflexivity|].
    cbn [wa_userAnswer wrong_of userAnswer graded]. rewrite Hi. reflexivity.
Qed.

End EmptyAnswer.

(** The server starts in a valid state. *)
Lemma empty_state_valid : valid_state empty_state.
Proof.
  intros quiz Hq. discriminate Hq.
Qed.

Lemma one_question_state_valid : valid_state one_question_state.
Proof.
  intros quiz Hq. cbn in Hq. injection Hq as <-.
  exact (generateQuizFromText_accepted (world_answering one_question_text)
           (Some (JStr source_text)) [one_question] eq_refl).
Qed.

(** Every value the handler logs of a submission of strings prints. *)
Lemma strings_loggable (E : Engine) (st : State) (name surname : jsstring)
    (answers : list jsstring) :
  loggable E st (Some (JStr name)) (Some (JStr surname))
    (Some (JArr (map JStr answers))).
Proof.
  split.
  - split; [|split]; eexists; reflexivity.
  - intros quiz ans _ Ha. injection Ha as <-. intros i _.
    unfold item. cbn [GetIndex]. rewrite nth_error_map.
    destruct (nth_error answers i); eexists; reflexivity.
Qed.



(** C10, at the failing input: a submission whose name is the empty
    string and whose surname is an object with a [toString] member of
    its own is answered 500 by the error-handling middleware, not 400
    with the missing-fields message: the log line of the surname
    throws ahead of the guard. Nothing is stored. *)
Theorem empty_name_with_unprintable_surname_answered_500 (E : Engine) :
  Get empty_name_unprintable_surname (lit "name") = Return (Some (JStr []))
  /\ Get empty_name_unprintable_surname (lit "surname")
     = Return (Some hides_toString)
  /\ interpolate E (Some hides_toString)
     = Throw (Error (lit "Cannot convert object to primitive value"))
  /\ post_quiz_submit E timestamp one_question_state
       empty_name_unprintable_surname
     = (respond 500 InternalServerError, one_question_state).
Proof.
  split; [reflexivity|]. split; [reflexivity|]. split; reflexivity.
Qed.

(** A submission of strings whose name is empty is answered 400 with
    the missing-fields message. *)
Lemma empty_name_of_strings_rejected (E : Engine) :
  post_quiz_submit E timestamp one_question_state
    (submission [] (lit "Lovelace") [lit "b"])
  = (respond 400 (ErrorBody (lit "Name, surname, and answers required")),
     one_question_state).
Proof.
  apply (empty_name_or_surname_rejected_when_logged E timestamp
           one_question_state (submission [] (lit "Lovelace") [lit "b"])
           (Some (JStr [])) (Some (JStr (lit "Lovelace")))
           (Some (JArr [JStr (lit "b")]))).
  - reflexivity.
  - reflexivity.
  - reflexivity.
  - exact (proj1 (strings_loggable E one_question_state [] (lit "Lovelace")
                    [lit "b"])).
  - left. reflexivity.
Qed.

(** C9 at a one-answer submission whose answer is the empty string. *)
Lemma empty_answer_recorded_as_no_answer_witness :
  status (fst (post_quiz_submit sample_engine timestamp one_question_state
                 (submission (lit "Ada") (lit "Lovelace") [[]]))) = 200
  /\ exists r wrong d w,
       post_quiz_submit sample_engine timestamp one_question_state
         (submission (lit "Ada") (lit "Lovelace") [[]])
       = (respond 200 (Submitted (score r) (total r) (percentage r) wrong),
          {| currentQuiz := currentQuiz one_question_state;
             quizResults := quizResults one_question_state ++ [r] |})
       /\ nth_error (detailedResults r) 0 = Some d
       /\ questionNumber d = 1%nat
       /\ userAnswer d = Some (JStr (lit "No answer"))
       /\ isCorrect d = false
       /\ In w wrong
       /\ wa_questionNumber w = 1%nat
       /\ wa_userAnswer w = Some (JStr (lit "No answer")).
Proof.
  split; [vm_compute; reflexivity|].
  apply (empty_answer_recorded_as_no_answer sample_engine timestamp
           one_question_state
           (submission (lit "Ada") (lit "Lovelace") [[]])
           (JArr [JStr []]) [one_question] 0%nat one_question).
  - exact one_question_state_valid.
  - reflexivity.
  - reflexivity.
  - reflexivity.
  - reflexivity.
  - vm_compute. reflexivity.
Defined.

(** C5, at the failing input: forty questions of which twenty-three are
    answered correctly score 23 of 40, and the percentage returned is
    57, whereas 57.5 rounded with halves up is 58. *)
Theorem percentage_of_23_in_40_is_57 (E : Engine) :
  count_matching (JArr (map JStr (repeat (lit "b") 23 ++ repeat (lit "c") 17)))
    forty_questions = 23%nat
  /\ (exists wrong st',
        post_quiz_submit E timestamp forty_state twenty_three_right
        = (respond 200 (Submitted 23 40 (compute_percentage 23 40) wrong), st'))
  /\ Double.to_Z (compute_percentage 23 40) = Some 57
  /\ round_half_up 23 40 = 58.
Proof.
  split; [vm_compute; reflexivity|].
  split.
  - eexists. eexists. vm_compute. reflexivity.
  - split; vm_compute; reflexivity.
Qed.

(** * Further properties *)

(** ** The validator, completed *)

Section ValidatorCompleteness.

Variable E : Engine.

Lemma well_formed_validates (i : nat) (q : json) :
  well_formed_question q -> validate_question E i q = Return tt.
Proof.
  intros [w [qu [opts [c [Hw [Tw [Hqu [Tqu [Ho [Hlen [Hc [Tc Hin]]]]]]]]]]]].
  unfold validate_question, missing_fields.
  rewrite Hw. cbn [bind]. rewrite Tw. cbn [negb].
  rewrite Hqu. cbn [bind]. rewrite Tqu. cbn [negb].
  rewrite Ho. cbn [bind truthy negb].
  rewrite Hc. cbn [bind]. rewrite Tc. cbn [negb].
  rewrite Hlen. cbn [Nat.eqb negb]. rewrite Hin. reflexivity.
Qed.

Lemma well_formed_all_validate (qs : list json) :
  Forall well_formed_question qs ->
  forall i, validate_questions E i qs = Return tt.
Proof.
  induction 1 as [|q rest Hq _ IH]; intros i; [reflexivity|].
  cbn [validate_questions]. rewrite (well_formed_validates i q Hq). cbn [bind].
  apply IH.
Qed.

(** X1: the validator returns a list exactly when that list is the
    [quiz] array of the object, is not empty, and holds only well-formed
    questions; it returns the array itself. *)
Theorem validate_accepts_exactly (quizObj : json) (qs : list json) :
  validate E quizObj = Return qs
  <-> Get quizObj (lit "quiz") = Return (Some (JArr qs)) /\ accepted qs.
Proof.
  split.
  - exact (validate_sound E quizObj qs).
  - intros [Hget [Hne Hall]]. unfold validate. rewrite Hget. cbn [bind].
    cbn [truthy is_array negb orb].
    destruct qs as [|q rest]; [contradiction|].
    cbn [List.length Nat.eqb].
    rewrite (well_formed_all_validate (q :: rest) Hall 0%nat). reflexivity.
Qed.

(** X2: when the [quiz] array holds only reportable questions,
    validation fails either on the empty array, or with a message that
    starts with the number of the first question that is not well
    formed. *)
Theorem validation_error_names_first_offender
    (quizObj : json) (qs : list json) (e : exn) :
  Get quizObj (lit "quiz") = Return (Some (JArr qs)) ->
  Forall (reportable E) qs ->
  validate E quizObj = Throw e ->
  (qs = [] /\ e = Error (lit "Quiz array is empty"))
  \/ exists i q,
       nth_error qs i = Some q
       /\ ~ well_formed_question q
       /\ (forall j q', (j < i)%nat -> nth_error qs j = Some q' ->
                        well_formed_question q')
       /\ starts_with (question_label i) (err_message e) = true.
Proof.
  intros Hget Hrep H. unfold validate in H. rewrite Hget in H.
  cbn [bind truthy is_array negb orb] in H.
  destruct qs as [|q0 rest].
  { left. split; [reflexivity|]. cbn in H. injection H as <-. reflexivity. }
  right. cbn [List.length Nat.eqb] in H.
  destruct (validate_questions E 0 (q0 :: rest)) as [[]|e0] eqn:Hloop;
    cbn [bind] in H; [discriminate H|].
  injection H as <-.
  apply validate_questions_first_failure in Hloop.
  destruct Hloop as [i [q [Hi [Hfail Hbefore]]]]. cbn [Nat.add] in Hfail.
  exists i, q. split; [exact Hi|]. split; [|split].
  - intros Hwf. rewrite (well_formed_validates i q Hwf) in Hfail.
    discriminate Hfail.
  - intros j q' Hlt Hj.
    exact (validate_question_sound E (0 + j) q' (Hbefore j q' Hlt Hj)).
  - rewrite Forall_forall in Hrep.
    destruct (Hrep q (nth_error_In _ i Hi)) as [Hnull Hprint].
    exact (validate_question_error_names_question E i q e0 Hnull Hprint Hfail).
Qed.

End ValidatorCompleteness.

Lemma validation_error_names_first_offender_witness :
  validate sample_engine
    (JObj [(lit "quiz", JArr [one_question; JObj [(lit "word", JStr (lit "w"))]])])
  = Throw (Error (lit "Question 2 is missing required fields"))
  /\ ((([one_question; JObj [(lit "word", JStr (lit "w"))]] : list json) = []
       /\ Error (lit "Question 2 is missing required fields")
          = Error (lit "Quiz array is empty"))
      \/ exists i q,
           nth_error [one_question; JObj [(lit "word", JStr (lit "w"))]] i = Some q
           /\ ~ well_formed_question q
           /\ (forall j q', (j < i)%nat ->
                 nth_error [one_question; JObj [(lit "word", JStr (lit "w"))]] j = Some q' ->
                 well_formed_question q')
           /\ starts_with (question_label i)
                (err_message (Error (lit "Question 2 is missing required fields"))) = true).
Proof.
  split; [vm_compute; reflexivity|].
  apply (validation_error_names_first_offender sample_engine
           (JObj [(lit "quiz", JArr [one_question; JObj [(lit "word", JStr (lit "w"))]])])).
  - reflexivity.
  - repeat constructor; try discriminate;
      intros c Hc; vm_compute in Hc; try discriminate Hc;
      injection Hc as <-; eexists; reflexivity.
  - vm_compute. reflexivity.
Defined.

(** ** The stages of the extractor *)

Section ExtractorStages.

Variable E : Engine.

Lemma starts_with_absent (c : code_unit) (p s : jsstring) :
  ~ In c s -> starts_with (c :: p) s = false.
Proof.
  destruct s as [|x s]; [reflexivity|].
  intros Hin. cbn [starts_with].
  destruct (N.eqb_spec c x) as [->|Hne]; [|reflexivity].
  exfalso. apply Hin. left. reflexivity.
Qed.

(** An expression that begins with a literal does not match a text in
    which the first code unit of the literal does not occur. *)
Lemma search_literal_absent (c : code_unit) (p : jsstring) (r : re) (s : jsstring) :
  ~ In c s -> forall pos, search (Seq (Lit (c :: p)) r) pos s = None.
Proof.
  induction s as [|x s IH]; intros Hin pos; cbn [search Regex.run].
  - reflexivity.
  - rewrite (starts_with_absent c p (x :: s) Hin).
    apply IH. intros H. apply Hin. right. exact H.
Qed.

Lemma String_match_literal_absent (c : code_unit) (p : jsstring) (r : re)
    (s : jsstring) :
  ~ In c s -> String_match (Seq (Lit (c :: p)) r) s = None.
Proof.
  intros Hin. unfold String_match.
  rewrite (search_literal_absent c p r s Hin 0%nat). reflexivity.
Qed.

(** Before the first occurrence of the first code unit of the literal
    no match starts. *)
Lemma search_skips_prefix (c : code_unit) (p : jsstring) (r : re)
    (pre rest : jsstring) :
  ~ In c pre ->
  forall pos,
    search (Seq (Lit (c :: p)) r) pos (pre ++ rest)
    = search (Seq (Lit (c :: p)) r) (pos + List.length pre) rest.
Proof.
  induction pre as [|x pre IH]; intros Hin pos.
  - cbn [app List.length]. rewrite Nat.add_0_r. reflexivity.
  - cbn [app search Regex.run].
    assert (Hx : starts_with (c :: p) (x :: pre ++ rest) = false).
    { cbn [starts_with]. destruct (N.eqb_spec c x) as [->|Hne]; [|reflexivity].
      exfalso. apply Hin. left. reflexivity. }
    rewrite Hx. rewrite IH by (intros H; apply Hin; right; exact H).
    cbn [List.length]. rewrite Nat.add_succ_r. reflexivity.
Qed.

(** The greedy star over any character followed by a closing brace
    stops at the last closing brace. *)
Lemma greedy_no_closing_brace {R : Type} (post : jsstring) (f : nat -> R) :
  ~ In 125%N post ->
  forall pos,
    star_greedy ClsAny pos post
      (fun pos' s' =>
         if starts_with (lit "}") s' then Some (f pos') else None)
    = None.
Proof.
  induction post as [|x post IH]; intros Hin pos; cbn [star_greedy in_class].
  - reflexivity.
  - rewrite IH by (intros H; apply Hin; right; exact H).
    cbv beta.
    assert (Hs : starts_with (lit "}") (x :: post) = false)
      by exact (starts_with_absent 125%N [] (x :: post) Hin).
    rewrite Hs. reflexivity.
Qed.

Lemma greedy_last_closing_brace {R : Type} (mid post : jsstring) (f : nat -> R) :
  ~ In 125%N post ->
  forall pos,
    star_greedy ClsAny pos (mid ++ 125%N :: post)
      (fun pos' s' =>
         if starts_with (lit "}") s' then Some (f pos') else None)
    = Some (f (pos + List.length mid)%nat).
Proof.
  intros Hin. induction mid as [|x mid IH]; intros pos.
  - cbn [app star_greedy in_class].
    rewrite (greedy_no_closing_brace post f Hin).
    cbn [List.length]. rewrite Nat.add_0_r. reflexivity.
  - cbn [app star_greedy in_class]. rewrite IH.
    cbn [List.length]. rewrite Nat.add_succ_r. reflexivity.
Qed.

(** The brace expression matches from the first opening brace to the
    last closing brace. *)
Lemma brace_match_first_to_last (pre mid post : jsstring) :
  ~ In 123%N pre -> ~ In 125%N post ->
  String_match brace_re (pre ++ 123%N :: mid ++ 125%N :: post)
  = Some {| whole := 123%N :: mid ++ [125%N]; group1 := None |}.
Proof.
  intros Hpre Hpost. unfold String_match, brace_re.
  change (lit "{") with [123%N].
  rewrite (search_skips_prefix 123%N [] _ pre _ Hpre 0%nat). cbn [Nat.add].
  cbn [search Regex.run starts_with List.length skipn].
  rewrite N.eqb_refl. cbn [andb].
  rewrite (greedy_last_closing_brace mid post
             (fun pos' => (List.length pre, (pos' + 1)%nat, @None (nat * nat)))
             Hpost).
  f_equal. unfold slice. f_equal.
  rewrite skipn_app, skipn_all, Nat.sub_diag. cbn [skipn app].
  replace (List.length pre + 1 + List.length mid + 1 - List.length pre)%nat
    with (S (List.length mid + 1)) by lia.
  cbn [firstn]. f_equal.
  replace (List.length mid + 1)%nat with (List.length (mid ++ [125%N]))
    by (rewrite length_app; reflexivity).
  change (125%N :: post) with ([125%N] ++ post).
  rewrite app_assoc. rewrite firstn_app, firstn_all, Nat.sub_diag.
  cbn [firstn]. rewrite app_nil_r. reflexivity.
Qed.

(** X3: when the direct parse fails and the text holds no backquote,
    the extractor parses the span from the first opening brace to the
    last closing brace, and returns its value when that span is JSON. *)
Theorem extract_brace_span (pre mid post : jsstring) (e : exn) (quizObj : json) :
  JSON_parse E (pre ++ 123%N :: mid ++ 125%N :: post) = Throw e ->
  ~ In 96%N (pre ++ 123%N :: mid ++ 125%N :: post) ->
  ~ In 123%N pre -> ~ In 125%N post ->
  JSON_parse E (123%N :: mid ++ [125%N]) = Return quizObj ->
  extract E (pre ++ 123%N :: mid ++ 125%N :: post) = Return quizObj.
Proof.
  intros Hdirect Hfence Hpre Hpost Hspan. unfold extract.
  rewrite Hdirect.
  unfold fence_re. change (lit "```json") with (96%N :: lit "``json").
  rewrite (String_match_literal_absent 96%N _ _ _ Hfence).
  rewrite (brace_match_first_to_last pre mid post Hpre Hpost). cbn [whole].
  rewrite Hspan. reflexivity.
Qed.

(** X4: when the direct parse fails and the text holds neither a
    backquote nor an opening brace, the extractor throws the
    no-JSON error, whose message ends with the first 200 code units of
    the text. *)
Theorem extract_nothing_found (content : jsstring) (e : exn) :
  JSON_parse E content = Throw e ->
  ~ In 96%N content -> ~ In 123%N content ->
  extract E content
  = Throw (Error (lit "No JSON object found in model response. Raw content: "
                    ++ firstn 200 content)).
Proof.
  intros Hdirect Hfence Hbrace. unfold extract. rewrite Hdirect.
  unfold fence_re, brace_re.
  change (lit "```json") with (96%N :: lit "``json").
  change (lit "{") with [123%N].
  rewrite (String_match_literal_absent 96%N _ _ _ Hfence).
  rewrite (String_match_literal_absent 123%N _ _ _ Hbrace).
  reflexivity.
Qed.

Lemma starts_with_app_l (p s x : jsstring) :
  starts_with p s = true -> starts_with p (s ++ x) = true.
Proof.
  revert s. induction p as [|a p IH]; intros s H; [reflexivity|].
  destruct s as [|b s]; [discriminate H|].
  cbn [app starts_with] in *. apply andb_prop in H. destruct H as [Hab Hrest].
  rewrite Hab, (IH s Hrest). reflexivity.
Qed.

Lemma includes_app_l (s x p : jsstring) :
  includes s p = true -> includes (s ++ x) p = true.
Proof.
  induction s as [|a s IH]; intros H.
  - cbn [includes] in H. rewrite orb_false_r in H.
    destruct p as [|b p]; [|discriminate H].
    destruct x; reflexivity.
  - cbn [app includes] in *. apply orb_prop in H. destruct H as [H|H].
    + change (a :: s ++ x) with ((a :: s) ++ x).
      rewrite (starts_with_app_l p (a :: s) x H). reflexivity.
    + rewrite (IH H). apply orb_true_r.
Qed.

(** The [catch] block rethrows a plain error whose message holds the
    word JSON. *)
Lemma on_error_keeps_json_message (prefix rest : jsstring) :
  includes prefix (lit "JSON") = true ->
  on_error (Error (prefix ++ rest)) = Error (prefix ++ rest).
Proof.
  intros Hp. unfold on_error, known_error.
  cbn [err_response err_request err_code err_message Error].
  rewrite (includes_app_l prefix rest (lit "JSON") Hp).
  destruct (includes (prefix ++ rest) (lit "API key")); reflexivity.
Qed.

(** X5: an error of the extractor leaves the pipeline as it is: its
    message holds the word JSON, so the [catch] block rethrows it. *)
Theorem extraction_error_rethrown (content : jsstring) (e : exn) :
  extract E content = Throw e -> on_error e = e.
Proof.
  unfold extract. intros H.
  pose proof on_error_keeps_json_message as Hkeep.
  destruct (JSON_parse E content) as [v|e1]; [discriminate H|].
  destruct (match String_match fence_re content with
            | Some m => Some m
            | None => String_match brace_re content
            end) as [m|].
  - destruct (JSON_parse E (whole m)) as [v|e2]; [discriminate H|].
    injection H as <-.
    apply (Hkeep (lit "Failed to parse extracted JSON: ") (err_message e2)).
    vm_compute. reflexivity.
  - injection H as <-.
    apply (Hkeep (lit "No JSON object found in model response. Raw content: ")
             (substring0 200 content)).
    vm_compute. reflexivity.
Qed.

End ExtractorStages.

Ltac not_in_list :=
  let H := fresh "H" in
  intros H; repeat (destruct H as [H|H]; [discriminate H|]); exact H.

Lemma extract_brace_span_witness :
  extract sample_engine
    (lit "noise " ++ 123%N :: dq "'quiz':[]" ++ 125%N :: lit " trailing")
  = Return empty_quiz_obj.
Proof.
  apply (extract_brace_span sample_engine (lit "noise ") (dq "'quiz':[]")
           (lit " trailing") (Error (lit "Unexpected token")) empty_quiz_obj).
  - vm_compute. reflexivity.
  - not_in_list.
  - not_in_list.
  - not_in_list.
  - vm_compute. reflexivity.
Defined.

Lemma extract_nothing_found_witness :
  extract sample_engine (lit "I cannot help with that.")
  = Throw (Error (lit "No JSON object found in model response. Raw content: "
                    ++ firstn 200 (lit "I cannot help with that."))).
Proof.
  apply (extract_nothing_found sample_engine (lit "I cannot help with that.")
           (Error (lit "Unexpected token"))).
  - vm_compute. reflexivity.
  - not_in_list.
  - not_in_list.
Defined.

Lemma extraction_error_rethrown_witness :
  on_error (Error (lit "No JSON object found in model response. Raw content: "
                     ++ firstn 200 (lit "I cannot help with that.")))
  = Error (lit "No JSON object found in model response. Raw content: "
             ++ firstn 200 (lit "I cannot help with that.")).
Proof.
  apply (extraction_error_rethrown sample_engine (lit "I cannot help with that.")).
  vm_compute. reflexivity.
Defined.

Lemma extract_fenced_throws_witness :
  extract sample_engine fenced_text
  = Throw (Error (lit "Failed to parse extracted JSON: "
                    ++ syntax_error_message sample_engine
                         (whole {| whole := fenced_text;
                                   group1 := Some one_question_text |}))).
Proof.
  apply (extract_fenced_throws sample_engine fenced_text
           {| whole := fenced_text; group1 := Some one_question_text |}
           (Error (lit "Unexpected token"))).
  - vm_compute. reflexivity.
  - vm_compute. reflexivity.
Defined.

Section ModelClient.

Variable W : World.

Lemma meaningful_text_passes (t : jsstring) :
  (20 <= List.length (trim t))%nat ->
  negb (truthy (Some (JStr t))) || (List.length (trim t) <? 20)%nat = false.
Proof.
  intros Hlen.
  destruct t as [|c t]; [cbn in Hlen; lia|].
  cbn [truthy negb orb]. apply Nat.ltb_ge. exact Hlen.
Qed.

(** With a meaningful text and a configured key the pipeline is the
    [try] block followed by the [catch] block. *)
Lemma generateQuizFromText_calls (t : jsstring) :
  (20 <= List.length (trim t))%nat ->
  (exists k key, OPENROUTER_API_KEY W = Some (k :: key)) ->
  generateQuizFromText W (Some (JStr t))
  = match request_quiz W t with
    | Return quiz => Return quiz
    | Throw err => Throw (on_error err)
    end.
Proof.
  intros Hlen [k [key Hkey]]. rewrite (generateQuizFromText_string W t).
  rewrite (meaningful_text_passes t Hlen), Hkey. reflexivity.
Qed.

(** X7: an error of the HTTP client that carries the request and no
    response, as a timeout does, is reported as a missing response,
    whatever its code and message. *)
Theorem unanswered_request_reported (t : jsstring) (err : exn) :
  (20 <= List.length (trim t))%nat ->
  (exists k key, OPENROUTER_API_KEY W = Some (k :: key)) ->
  axios_post W (substring0 1000 t) = Rejected err ->
  err_response err = None -> err_request err = true ->
  generateQuizFromText W (Some (JStr t))
  = Throw (Error (lit "No response received from AI service. Please check your internet connection.")).
Proof.
  intros Hlen Hkey Hpost Hresp Hreq.
  rewrite (generateQuizFromText_calls t Hlen Hkey).
  unfold request_quiz. rewrite Hpost. cbn [bind].
  unfold on_error. rewrite Hresp, Hreq. reflexivity.
Qed.

(** X8: the provider is asked about the first 1000 code units only:
    two texts that agree on them give the same result. *)
Theorem text_beyond_1000_ignored (t1 t2 : jsstring) :
  (20 <= List.length (trim t1))%nat ->
  (20 <= List.length (trim t2))%nat ->
  firstn 1000 t1 = firstn 1000 t2 ->
  generateQuizFromText W (Some (JStr t1)) = generateQuizFromText W (Some (JStr t2)).
Proof.
  intros H1 H2 Heq.
  rewrite (generateQuizFromText_string W t1), (generateQuizFromText_string W t2).
  rewrite (meaningful_text_passes t1 H1), (meaningful_text_passes t2 H2).
  destruct (OPENROUTER_API_KEY W) as [[|k key]|]; try reflexivity.
  unfold request_quiz, substring0. rewrite Heq. reflexivity.
Qed.

End ModelClient.

Lemma unanswered_request_reported_witness :
  generateQuizFromText world_timing_out (Some (JStr source_text))
  = Throw (Error (lit "No response received from AI service. Please check your internet connection.")).
Proof.
  apply (unanswered_request_reported world_timing_out source_text timeout_error).
  - vm_compute. lia.
  - exists 115%N, (lit "k-or-key"). reflexivity.
  - reflexivity.
  - reflexivity.
  - reflexivity.
Defined.

Lemma text_beyond_1000_ignored_witness :
  generateQuizFromText (world_answering one_question_text)
    (Some (JStr (long_text (lit "first ending"))))
  = generateQuizFromText (world_answering one_question_text)
      (Some (JStr (long_text (lit "another ending, longer")))).
Proof.
  apply (text_beyond_1000_ignored (world_answering one_question_text)
           (long_text (lit "first ending"))
           (long_text (lit "another ending, longer"))).
  - vm_compute. lia.
  - vm_compute. lia.
  - vm_compute. reflexivity.
Defined.

(** ** Percentages *)

Section Percentages.

Lemma round_half_even_exact (N den : Z) :
  0 < den -> round_half_even (N * den) den = N.
Proof.
  intros Hden.
  pose proof (round_half_even_le (N * den) den N Hden (Z.le_refl _)).
  pose proof (round_half_even_ge (N * den) den N Hden (Z.le_refl _)).
  lia.
Qed.

(** [n / n] is the double 1. *)
Lemma div_self (n : Z) :
  0 < n < 2 ^ 53 ->
  exists sc, sc <= 0 /\ Double.div (of_Z n) (of_Z n) = Fin false (2 ^ (- sc)) sc.
Proof.
  intros Hn.
  destruct (of_Z_exact n Hn) as [ea [Hea Hrep]].
  rewrite Hrep. cbn [Double.div xorb].
  pose proof (pow2_pos (- ea) ltac:(lia)) as Pa.
  replace (n * 2 ^ (- ea) =? 0) with false by (symmetry; apply Z.eqb_neq; nia).
  rewrite Z.sub_diag. cbn [Z.max Z.compare]. rewrite Z.pow_0_r, Z.mul_1_r.
  set (p := n * 2 ^ (- ea)).
  assert (Hp : 0 < p) by (unfold p; nia).
  destruct (round_rne_finite false p p Hp) as [sc [Hsc Hr]]; [lia|].
  exists sc. split; [exact Hsc|]. rewrite Hr. f_equal.
  rewrite (Z.mul_comm p). apply round_half_even_exact. exact Hp.
Qed.

(** The double 1 times 100 is the double 100. *)
Lemma one_times_100 (sc : Z) :
  sc <= 0 ->
  exists sc', sc' <= 0
              /\ Double.mul (Fin false (2 ^ (- sc)) sc) (of_Z 100)
                 = Fin false (100 * 2 ^ (- sc')) sc'.
Proof.
  intros Hsc. rewrite of_Z_100. cbn [Double.mul xorb].
  pose proof (pow2_pos (- sc) ltac:(lia)) as Ps.
  replace (2 ^ (- sc) =? 0) with false by (symmetry; apply Z.eqb_neq; lia).
  replace (100 * 2 ^ 46 =? 0) with false by reflexivity. cbn [orb].
  rewrite Z.max_r by lia. rewrite Z.max_l by lia. rewrite Z.pow_0_r, Z.mul_1_r.
  set (q := 2 ^ (- (sc + -46))).
  assert (Hq : 0 < q) by (apply pow2_pos; lia).
  assert (Hqe : q = 2 ^ (- sc) * 2 ^ 46).
  { unfold q. rewrite <- Z.pow_add_r by lia. f_equal. lia. }
  assert (Hp : 2 ^ (- sc) * (100 * 2 ^ 46) = 100 * q) by (rewrite Hqe; ring).
  rewrite Hp.
  destruct (round_rne_finite false (100 * q) q Hq) as [sc' [Hsc' Hr]].
  { assert (H128 : 100 * q <= q * 2 ^ 7) by lia.
    pose proof (Z.log2_le_mono _ _ H128) as Hmono.
    rewrite Z.log2_mul_pow2 in Hmono by lia. lia. }
  exists sc'. split; [exact Hsc'|]. rewrite Hr. f_equal.
  replace (100 * q * 2 ^ (- sc')) with (100 * 2 ^ (- sc') * q) by ring.
  apply round_half_even_exact. exact Hq.
Qed.

Lemma Math_round_100 (sc : Z) :
  sc <= 0 -> to_Z (Math_round (Fin false (100 * 2 ^ (- sc)) sc)) = Some 100.
Proof.
  intros Hsc. cbn [Math_round].
  destruct (0 <=? sc) eqn:H0.
  - apply Z.leb_le in H0. assert (sc = 0) as -> by lia. reflexivity.
  - pose proof (pow2_pos (- sc) ltac:(lia)) as Ps.
    assert (Hpow : 2 ^ (- sc + 1) = 2 * 2 ^ (- sc)).
    { rewrite Z.pow_add_r by lia. lia. }
    assert (Hr : (2 * (100 * 2 ^ (- sc)) + 2 ^ (- sc)) / 2 ^ (- sc + 1) = 100).
    { rewrite Hpow. symmetry. apply (Z.div_unique _ _ 100 (2 ^ (- sc))); lia. }
    rewrite Hr. reflexivity.
Qed.

(** X10: with every answer right the percentage is 100, with none right
    it is 0, for a quiz of any length. *)
Theorem percentage_of_all_and_none (len : nat) :
  (0 < len)%nat -> Z.of_nat len < 2 ^ 53 ->
  to_Z (compute_percentage len len) = Some 100
  /\ to_Z (compute_percentage 0 len) = Some 0.
Proof.
  intros Hlen Hbound. unfold compute_percentage, Double.of_nat. split.
  - destruct (div_self (Z.of_nat len) ltac:(lia)) as [sc [Hsc Hdiv]].
    rewrite Hdiv.
    destruct (one_times_100 sc Hsc) as [sc' [Hsc' Hmul]].
    rewrite Hmul. exact (Math_round_100 sc' Hsc').
  - destruct (of_Z_exact (Z.of_nat len) ltac:(lia)) as [eb [Heb Hrep]].
    rewrite Hrep. change (of_Z (Z.of_nat 0)) with (Fin false 0 0).
    cbn [Double.div xorb].
    pose proof (pow2_pos (- eb) ltac:(lia)) as Pb.
    replace (Z.of_nat len * 2 ^ (- eb) =? 0) with false
      by (symmetry; apply Z.eqb_neq; nia).
    cbn [Z.eqb]. vm_compute. reflexivity.
Qed.

(** X11: for every quiz of fewer than 40 questions the percentage is the
    exact quotient rounded to the nearest integer, halves up. *)
Theorem percentage_exact_below_40 (score len : nat) :
  (0 < len < 40)%nat -> (score <= len)%nat ->
  to_Z (compute_percentage score len)
  = Some (round_half_up (Z.of_nat score) (Z.of_nat len)).
Proof.
  intros Hlen Hscore.
  assert (Hall :
            forallb (fun t =>
              forallb (fun s =>
                match to_Z (compute_percentage s t) with
                | Some z => z =? round_half_up (Z.of_nat s) (Z.of_nat t)
                | None => false
                end) (seq 0 (S t))) (seq 1 39) = true)
    by (vm_compute; reflexivity).
  rewrite forallb_forall in Hall.
  specialize (Hall len ltac:(apply in_seq; lia)).
  rewrite forallb_forall in Hall.
  specialize (Hall score ltac:(apply in_seq; lia)).
  destruct (to_Z (compute_percentage score len)) as [z|]; [|discriminate Hall].
  apply Z.eqb_eq in Hall. rewrite Hall. reflexivity.
Qed.

End Percentages.

Lemma percentage_of_all_and_none_witness :
  to_Z (compute_percentage 10 10) = Some 100
  /\ to_Z (compute_percentage 0 10) = Some 0.
Proof.
  apply (percentage_of_all_and_none 10).
  - lia.
  - vm_compute. reflexivity.
Defined.

Lemma percentage_exact_below_40_witness :
  to_Z (compute_percentage 7 10) = Some (round_half_up 7 10).
Proof.
  apply (percentage_exact_below_40 7 10); lia.
Defined.

(** ** The outcome of a submission *)

Section SubmissionOutcome.

Variable E : Engine.
Variable now : jsstring.

Lemma filter_partition_length {A : Type} (f : A -> bool) (l : list A) :
  (List.length (filter f l) + List.length (filter (fun x => negb (f x)) l)
   = List.length l)%nat.
Proof.
  induction l as [|a l IH]; [reflexivity|].
  cbn [filter]. destruct (f a); cbn [negb List.length]; lia.
Qed.

Lemma details_numbers (answers : json) (quiz : list json) :
  forall i, map questionNumber (details answers i quiz)
            = seq (i + 1) (List.length quiz).
Proof.
  induction quiz as [|q rest IH]; intros i; [reflexivity|].
  cbn [details map List.length seq questionNumber graded].
  rewrite IH. reflexivity.
Qed.

(** X12: the reply to an accepted submission, one answered 200, is
    consistent: the score and the number of wrong answers add up to the
    total, the total is the length of the current quiz, the score is
    the number of indices whose answer equals the correct value, the
    percentage is an integer between 0 and 100, and the record stored
    has one detailed entry per question, numbered from 1 in order. *)
Theorem accepted_submission_adds_up (st : State) (reqBody : json)
    (name surname : jsval) (ans : json) (quiz : list json) :
  valid_state st ->
  Get reqBody (lit "name") = Return name ->
  Get reqBody (lit "surname") = Return surname ->
  Get reqBody (lit "answers") = Return (Some ans) ->
  currentQuiz st = Some quiz ->
  Z.of_nat (List.length quiz) < 2 ^ 53 ->
  status (fst (post_quiz_submit E now st reqBody)) = 200 ->
  exists sc pct wrong r,
    post_quiz_submit E now st reqBody
    = (respond 200 (Submitted sc (List.length quiz) pct wrong),
       {| currentQuiz := Some quiz; quizResults := quizResults st ++ [r] |})
    /\ (sc + List.length wrong = List.length quiz)%nat
    /\ sc = count_matching ans quiz
    /\ (exists z, Double.to_Z pct = Some z /\ 0 <= z <= 100)
    /\ score r = sc /\ total r = List.length quiz /\ percentage r = pct
    /\ name = Server.name r /\ surname = Server.surname r
    /\ map questionNumber (detailedResults r) = seq 1 (List.length quiz).
Proof.
  intros Hv Hn Hs Ha Hquiz Hbound H200.
  destruct (post_quiz_submit_accepted E now st reqBody H200)
    as [name' [surname' [ans' [quiz' [Hn' [Hs' [Ha' [Hquiz' [_ [_ Hpost]]]]]]]]]].
  rewrite Hn in Hn'. injection Hn' as <-.
  rewrite Hs in Hs'. injection Hs' as <-.
  rewrite Ha in Ha'. injection Ha' as <-.
  rewrite Hquiz in Hquiz'. injection Hquiz' as <-.
  rewrite Hquiz in Hpost.
  exists (score (result_of now name surname ans quiz)),
    (percentage (result_of now name surname ans quiz)),
    (map wrong_of (filter is_wrong
                     (detailedResults (result_of now name surname ans quiz)))),
    (result_of now name surname ans quiz).
  split; [exact Hpost|].
  cbn [score total percentage detailedResults Server.name Server.surname result_of].
  split; [|split; [|split]].
  - rewrite length_map. unfold is_wrong.
    rewrite filter_partition_length. apply details_length.
  - apply correct_details_count.
  - apply percentage_in_range.
    + destruct (Hv quiz Hquiz) as [Hne _].
      destruct quiz; [contradiction|cbn; lia].
    + rewrite <- (details_length ans quiz 0%nat). apply filter_length_le.
    + exact Hbound.
  - repeat split. apply details_numbers.
Qed.

End SubmissionOutcome.

(** ** The request loop *)

Section Requests.

Variable cfg : Config.

Lemma JsString_eqb_eq (a b : jsstring) : JsString.eqb a b = true <-> a = b.
Proof.
  unfold JsString.eqb. destruct (list_eq_dec N.eq_dec a b); split; intros H;
    try reflexivity; try assumption; try discriminate; contradiction.
Qed.


(** The two outcomes of a generation request. *)
Lemma post_admin_quiz_cases (W : World) (isAdmin : bool) (st : State)
    (reqBody : json) :
  (exists quiz,
      accepted quiz
      /\ post_admin_quiz W isAdmin st reqBody
         = (respond 200 (QuizGenerated (List.length quiz)),
            {| currentQuiz := Some quiz; quizResults := [] |}))
  \/ (status (fst (post_admin_quiz W isAdmin st reqBody)) <> 200
      /\ snd (post_admin_quiz W isAdmin st reqBody) = st).
Proof.
  unfold post_admin_quiz, requireAdmin, admin_quiz, admin_quiz_try.
  destruct isAdmin; [|right; split; [discriminate|reflexivity]].
  destruct (Get reqBody (lit "text")) as [text|e]; cbn [bind];
    [|right; split; [discriminate|reflexivity]].
  destruct text as [t|]; [|right; split; [discriminate|reflexivity]].
  destruct (negb (truthy (Some t)));
    [right; split; [discriminate|reflexivity]|].
  destruct (Get t (lit "length")) as [len|e]; cbn [bind];
    [|right; split; [discriminate|reflexivity]].
  destruct (interpolate (engine W) len) as [printed|e]; cbn [bind];
    [|right; split; [discriminate|reflexivity]].
  destruct (negb (is_string (Some t)));
    [right; split; [discriminate|reflexivity]|].
  destruct (generateQuizFromText W (Some t)) as [quiz|e] eqn:Hgen; cbn [bind].
  - left. exists quiz. split; [|reflexivity].
    exact (generateQuizFromText_accepted W (Some t) quiz Hgen).
  - right. split; [discriminate|reflexivity].
Qed.

(** The two outcomes of a submission. *)
Lemma post_quiz_submit_cases (E : Engine) (now : jsstring) (st : State)
    (reqBody : json) :
  (status (fst (post_quiz_submit E now st reqBody)) = 200
   /\ exists r, snd (post_quiz_submit E now st reqBody)
                = {| currentQuiz := currentQuiz st;
                     quizResults := quizResults st ++ [r] |})
  \/ (status (fst (post_quiz_submit E now st reqBody)) <> 200
      /\ snd (post_quiz_submit E now st reqBody) = st).
Proof.
  unfold post_quiz_submit, quiz_submit_body.
  destruct (Get reqBody (lit "name")) as [name|e];
    [|right; split; [discriminate|reflexivity]].
  cbn [bind].
  destruct (Get reqBody (lit "surname")) as [surname|e];
    [|right; split; [discriminate|reflexivity]].
  cbn [bind].
  destruct (Get reqBody (lit "answers")) as [answers|e];
    [|right; split; [discriminate|reflexivity]].
  cbn [bind].
  destruct (log_provided E name) as [s1|e];
    [|right; split; [discriminate|reflexivity]].
  cbn [bind].
  destruct (log_provided E surname) as [s2|e];
    [|right; split; [discriminate|reflexivity]].
  cbn [bind].
  destruct (log_answers_count E answers) as [s3|e];
    [|right; split; [discriminate|reflexivity]].
  cbn [bind].
  destruct (negb (truthy name) || negb (truthy surname) || negb (truthy answers));
    [right; split; [discriminate|reflexivity]|].
  destruct (currentQuiz st) as [quiz|] eqn:Hquiz;
    [|right; split; [discriminate|reflexivity]].
  destruct answers as [ans|]; [|right; split; [discriminate|reflexivity]].
  destruct (Get ans (lit "length")) as [len|e];
    [|right; split; [discriminate|reflexivity]].
  cbn [bind].
  destruct (negb (strict_equals len (Some (JNum (Double.of_nat (List.length quiz))))));
    [right; split; [discriminate|reflexivity]|].
  destruct (grade E ans 0 quiz _) as [g|e];
    [|right; split; [discriminate|reflexivity]].
  left. split; [reflexivity|]. eexists. reflexivity.
Qed.

Lemma server_eta (sv : Server) :
  {| store := store sv; admins := admins sv |} = sv.
Proof. destruct sv; reflexivity. Qed.


Lemma handle_admins (sid sid' : nat) (req : Request) (sv : Server) :
  is_admin sid (snd (handle cfg sid' req sv))
  = is_admin sid sv || logs_in cfg sid (sid', req).
Proof.
  unfold logs_in.
  destruct req; cbn [handle snd];
    try (rewrite orb_false_r; reflexivity).
  - destruct (admin_login cfg reqBody) as [[r granted]|e]; cbn [snd];
      [|rewrite andb_false_r, orb_false_r; reflexivity].
    destruct granted; cbn [snd].
    + unfold is_admin. cbn [admins existsb]. rewrite andb_true_r.
      apply orb_comm.
    + rewrite andb_false_r, orb_false_r. reflexivity.
  - destruct (post_admin_quiz _ _ _ _) as [r st]. cbn [snd].
    rewrite orb_false_r. reflexivity.
  - destruct (post_quiz_submit _ _ _) as [r st]. cbn [snd].
    rewrite orb_false_r. reflexivity.
  - destruct (is_admin sid' sv); cbn [snd]; rewrite orb_false_r; reflexivity.
Qed.

Lemma serve_admins (tr : list (nat * Request)) :
  forall sid sv,
    is_admin sid (snd (serve cfg tr sv))
    = is_admin sid sv || existsb (logs_in cfg sid) tr.
Proof.
  induction tr as [|[sid' req] rest IH]; intros sid sv.
  - cbn. rewrite orb_false_r. reflexivity.
  - cbn [serve existsb].
    destruct (handle cfg sid' req sv) as [r sv1] eqn:Hh.
    specialize (IH sid sv1).
    destruct (serve cfg rest sv1) as [rs sv2]. cbn [snd] in *.
    rewrite IH.
    replace sv1 with (snd (handle cfg sid' req sv)) by (rewrite Hh; reflexivity).
    rewrite handle_admins. rewrite orb_assoc. reflexivity.
Qed.

(** X14: after any trace from the start, a session is an admin exactly
    when one of its own logins in the trace was granted; any other
    session is answered 403 on both admin routes and changes nothing. *)
Theorem admin_only_after_own_login (tr : list (nat * Request)) (sid : nat) :
  is_admin sid (after cfg tr) = existsb (logs_in cfg sid) tr
  /\ (existsb (logs_in cfg sid) tr = false ->
      handle cfg sid GetAdminResults (after cfg tr) = (forbidden, after cfg tr)
      /\ forall provider reqBody,
           handle cfg sid (PostAdminQuiz provider reqBody) (after cfg tr)
           = (forbidden, after cfg tr)).
Proof.
  assert (Hadm : is_admin sid (after cfg tr) = existsb (logs_in cfg sid) tr).
  { unfold after. rewrite serve_admins. reflexivity. }
  split; [exact Hadm|].
  intros Hno. rewrite Hno in Hadm. split.
  - cbn [handle]. rewrite Hadm. reflexivity.
  - intros provider reqBody. cbn [handle]. rewrite Hadm.
    cbn [post_admin_quiz requireAdmin]. rewrite server_eta. reflexivity.
Qed.

Lemma handle_valid_state (sid : nat) (req : Request) (sv : Server) :
  valid_state (store sv) -> valid_state (store (snd (handle cfg sid req sv))).
Proof.
  intros Hv. destruct req; cbn [handle snd]; try exact Hv.
  - destruct (admin_login cfg reqBody) as [[r granted]|e]; [|exact Hv].
    destruct granted; exact Hv.
  - destruct (post_admin_quiz_cases (world_of cfg provider) (is_admin sid sv)
                (store sv) reqBody) as [[quiz [Hacc Hout]]|[_ Hsame]].
    + rewrite Hout. cbn [snd store]. intros q Hq. cbn in Hq.
      injection Hq as <-. exact Hacc.
    + destruct (post_admin_quiz _ _ _ _) as [r st]. cbn [snd store] in *.
      subst st. exact Hv.
  - pose proof (post_quiz_submit_keeps_quiz (cfg_engine cfg) now (store sv) reqBody) as Hk.
    destruct (post_quiz_submit (cfg_engine cfg) now (store sv) reqBody) as [r st].
    cbn [snd store] in *. intros q Hq. rewrite Hk in Hq. exact (Hv q Hq).
  - destruct (is_admin sid sv); exact Hv.
Qed.

Lemma handle_keeps_quiz_loaded (sid : nat) (req : Request) (sv : Server) :
  currentQuiz (store sv) <> None ->
  currentQuiz (store (snd (handle cfg sid req sv))) <> None.
Proof.
  intros Hq. destruct req; cbn [handle snd]; try exact Hq.
  - destruct (admin_login cfg reqBody) as [[r granted]|e]; [|exact Hq].
    destruct granted; exact Hq.
  - destruct (post_admin_quiz_cases (world_of cfg provider) (is_admin sid sv)
                (store sv) reqBody) as [[quiz [Hacc Hout]]|[_ Hsame]].
    + rewrite Hout. cbn [snd store currentQuiz]. discriminate.
    + destruct (post_admin_quiz _ _ _ _) as [r st]. cbn [snd store] in *.
      subst st. exact Hq.
  - pose proof (post_quiz_submit_keeps_quiz (cfg_engine cfg) now (store sv) reqBody) as Hk.
    destruct (post_quiz_submit (cfg_engine cfg) now (store sv) reqBody) as [r st].
    cbn [snd store] in *. rewrite Hk. exact Hq.
  - destruct (is_admin sid sv); exact Hq.
Qed.

Lemma serve_invariant (P : Server -> Prop) :
  (forall sid req sv, P sv -> P (snd (handle cfg sid req sv))) ->
  forall tr sv, P sv -> P (snd (serve cfg tr sv)).
Proof.
  intros Hstep. induction tr as [|[sid req] rest IH]; intros sv Hsv.
  - exact Hsv.
  - cbn [serve].
    pose proof (Hstep sid req sv Hsv) as H1.
    destruct (handle cfg sid req sv) as [r sv1]. cbn [snd] in H1.
    pose proof (IH sv1 H1) as H2.
    destruct (serve cfg rest sv1) as [rs sv2]. exact H2.
Qed.

(** X15: in every state the server reaches from its start, the current
    quiz, if there is one, is not empty and holds only well-formed
    questions. *)
Theorem reachable_quiz_accepted (tr : list (nat * Request)) :
  valid_state (store (after cfg tr)).
Proof.
  unfold after.
  apply (serve_invariant (fun sv => valid_state (store sv))).
  - intros sid req sv. apply handle_valid_state.
  - intros quiz Hq. discriminate Hq.
Qed.

(** X16: once a quiz is loaded, no request unloads it. *)
Theorem quiz_stays_loaded (tr : list (nat * Request)) (sv : Server) :
  currentQuiz (store sv) <> None ->
  currentQuiz (store (snd (serve cfg tr sv))) <> None.
Proof.
  apply (serve_invariant (fun sv => currentQuiz (store sv) <> None)).
  intros sid req sv0. apply handle_keeps_quiz_loaded.
Qed.

Lemma handle_tally (sid : nat) (req : Request) (sv : Server) (n : nat) :
  List.length (quizResults (store sv)) = n ->
  List.length (quizResults (store (snd (handle cfg sid req sv))))
  = tally n [(req, fst (handle cfg sid req sv))].
Proof.
  intros Hn. destruct req; cbn [handle snd fst tally]; try exact Hn.
  - destruct (admin_login cfg reqBody) as [[r granted]|e]; [|exact Hn].
    destruct granted; exact Hn.
  - destruct (post_admin_quiz_cases (world_of cfg provider) (is_admin sid sv)
                (store sv) reqBody) as [[quiz [Hacc Hout]]|[Hcode Hsame]].
    + rewrite Hout. reflexivity.
    + destruct (post_admin_quiz _ _ _ _) as [r st]. cbn [snd fst store] in *.
      subst st. cbn [lift reply code].
      destruct (Z.eqb_spec (status r) 200) as [Heq|_]; [contradiction|exact Hn].
  - destruct (post_quiz_submit_cases (cfg_engine cfg) now (store sv) reqBody)
      as [[Hcode [rec Hout]]|[Hcode Hsame]].
    + destruct (post_quiz_submit (cfg_engine cfg) now (store sv) reqBody) as [r st].
      cbn [snd fst store] in *. subst st. cbn [lift reply code quizResults].
      rewrite Hcode. cbn [Z.eqb Pos.eqb]. rewrite length_app. cbn. lia.
    + destruct (post_quiz_submit (cfg_engine cfg) now (store sv) reqBody) as [r st].
      cbn [snd fst store] in *. subst st. cbn [lift reply code].
      destruct (Z.eqb_spec (status r) 200) as [Heq|_]; [contradiction|exact Hn].
  - destruct (is_admin sid sv); exact Hn.
Qed.

Lemma serve_tally (tr : list (nat * Request)) :
  forall sv n,
    List.length (quizResults (store sv)) = n ->
    List.length (quizResults (store (snd (serve cfg tr sv))))
    = tally n (combine (map snd tr) (fst (serve cfg tr sv))).
Proof.
  induction tr as [|[sid req] rest IH]; intros sv n Hn.
  - exact Hn.
  - cbn [serve map snd].
    pose proof (handle_tally sid req sv n Hn) as Hstep.
    destruct (handle cfg sid req sv) as [r sv1]. cbn [snd fst] in Hstep.
    specialize (IH sv1 _ Hstep).
    destruct (serve cfg rest sv1) as [rs sv2]. cbn [snd fst combine] in *.
    rewrite IH.
    destruct req; reflexivity.
Qed.

(** What one request does to the results list: a generation answered
    200 empties it, a submission answered 200 appends one record to it,
    and every other request, whatever its route and its reply, leaves
    it as it was. *)
Lemma handle_results (sid : nat) (req : Request) (sv : Server) :
  match req with
  | PostAdminQuiz _ _ =>
      if code (fst (handle cfg sid req sv)) =? 200
      then quizResults (store (snd (handle cfg sid req sv))) = []
      else quizResults (store (snd (handle cfg sid req sv)))
           = quizResults (store sv)
  | PostQuizSubmit _ _ =>
      if code (fst (handle cfg sid req sv)) =? 200
      then exists rec,
             quizResults (store (snd (handle cfg sid req sv)))
             = quizResults (store sv) ++ [rec]
      else quizResults (store (snd (handle cfg sid req sv)))
           = quizResults (store sv)
  | _ =>
      quizResults (store (snd (handle cfg sid req sv))) = quizResults (store sv)
  end.
Proof.
  destruct req; cbn [handle snd fst]; try reflexivity.
  - destruct (admin_login cfg reqBody) as [[r granted]|e]; [|reflexivity].
    destruct granted; reflexivity.
  - destruct (post_admin_quiz_cases (world_of cfg provider) (is_admin sid sv)
                (store sv) reqBody) as [[quiz [Hacc Hout]]|[Hcode Hsame]].
    + rewrite Hout. reflexivity.
    + destruct (post_admin_quiz _ _ _ _) as [r st]. cbn [snd fst store] in *.
      subst st. cbn [lift reply code].
      destruct (Z.eqb_spec (status r) 200) as [Heq|_];
        [contradiction|reflexivity].
  - destruct (post_quiz_submit_cases (cfg_engine cfg) now (store sv) reqBody)
      as [[Hcode [rec Hout]]|[Hcode Hsame]].
    + destruct (post_quiz_submit (cfg_engine cfg) now (store sv) reqBody)
        as [r st].
      cbn [snd fst store] in *. subst st. cbn [lift reply code quizResults].
      rewrite Hcode. cbn [Z.eqb Pos.eqb]. exists rec. reflexivity.
    + destruct (post_quiz_submit (cfg_engine cfg) now (store sv) reqBody)
        as [r st].
      cbn [snd fst store] in *. subst st. cbn [lift reply code].
      destruct (Z.eqb_spec (status r) 200) as [Heq|_];
        [contradiction|reflexivity].
  - destruct (is_admin sid sv); reflexivity.
Qed.

(** X17: the results list changes only by a generation answered 200,
    which empties it, and by a submission answered 200, which appends
    one record to it; no other request, and no request answered
    otherwise, changes it. Hence after any trace from the start the
    number of stored results is the number of submissions answered 200
    since the last generation answered 200. *)
Theorem results_count_since_generation (tr : list (nat * Request)) :
  (forall (sid : nat) (req : Request) (sv : Server),
      match req with
      | PostAdminQuiz _ _ =>
          if code (fst (handle cfg sid req sv)) =? 200
          then quizResults (store (snd (handle cfg sid req sv))) = []
          else quizResults (store (snd (handle cfg sid req sv)))
               = quizResults (store sv)
      | PostQuizSubmit _ _ =>
          if code (fst (handle cfg sid req sv)) =? 200
          then exists rec,
                 quizResults (store (snd (handle cfg sid req sv)))
                 = quizResults (store sv) ++ [rec]
          else quizResults (store (snd (handle cfg sid req sv)))
               = quizResults (store sv)
      | _ =>
          quizResults (store (snd (handle cfg sid req sv)))
          = quizResults (store sv)
      end)
  /\ List.length (quizResults (store (after cfg tr)))
     = tally 0 (combine (map snd tr) (fst (serve cfg tr initial))).
Proof.
  split.
  - exact handle_results.
  - unfold after. apply serve_tally. reflexivity.
Qed.

End Requests.

(** ** Round trips between routes *)

Section RoundTrips.

Variable cfg : Config.

(** What a submission answered 200 has done. *)
Lemma post_quiz_submit_200 (E : Engine) (now : jsstring) (st : State)
    (reqBody : json) :
  status (fst (post_quiz_submit E now st reqBody)) = 200 ->
  exists quiz sc pct wrong r,
    currentQuiz st = Some quiz
    /\ post_quiz_submit E now st reqBody
       = (respond 200 (Submitted sc (List.length quiz) pct wrong),
          {| currentQuiz := Some quiz; quizResults := quizResults st ++ [r] |})
    /\ score r = sc /\ total r = List.length quiz /\ percentage r = pct
    /\ date r = now
    /\ Get reqBody (lit "name") = Return (Server.name r)
    /\ Get reqBody (lit "surname") = Return (Server.surname r).
Proof.
  intros H200.
  destruct (post_quiz_submit_accepted E now st reqBody H200)
    as [name [surname [ans [quiz [Hn [Hs [_ [Hquiz [_ [_ Hpost]]]]]]]]]].
  rewrite Hquiz in Hpost.
  exists quiz, (score (result_of now name surname ans quiz)),
    (percentage (result_of now name surname ans quiz)),
    (map wrong_of
       (filter is_wrong (detailedResults (result_of now name surname ans quiz)))),
    (result_of now name surname ans quiz).
  split; [exact Hquiz|]. split; [exact Hpost|].
  cbn [score total percentage date Server.name Server.surname result_of].
  repeat split; assumption.
Qed.

(** X18: what a submission answered 200 reports is what the admin
    sees: the record appended last to the results holds the score, the
    total and the percentage of the reply, the time of the request and
    the name and surname sent, and the results route lists it to every
    admin session. *)
Theorem submitted_result_is_listed (sid : nat) (now : jsstring) (reqBody : json)
    (sv sv1 : Server) (r : Reply) :
  handle cfg sid (PostQuizSubmit now reqBody) sv = (r, sv1) ->
  code r = 200 ->
  exists sc tot pct wrong rec,
    view r = Handler (Submitted sc tot pct wrong)
    /\ score rec = sc /\ total rec = tot /\ percentage rec = pct
    /\ date rec = now
    /\ Get reqBody (lit "name") = Return (Server.name rec)
    /\ Get reqBody (lit "surname") = Return (Server.surname rec)
    /\ forall sid',
         is_admin sid' sv1 = true ->
         handle cfg sid' GetAdminResults sv1
         = (reply 200
              (ResultsView (quizResults (store sv) ++ [rec])
                 (S (List.length (quizResults (store sv)))) true),
            sv1).
Proof.
  cbn [handle]. intros Hh Hcode.
  destruct (post_quiz_submit (cfg_engine cfg) now (store sv) reqBody) as [resp st] eqn:Hpost.
  injection Hh as <- <-. cbn [lift reply code] in Hcode.
  pose proof (post_quiz_submit_200 (cfg_engine cfg) now (store sv) reqBody) as H200.
  rewrite Hpost in H200. cbn [fst] in H200.
  destruct (H200 Hcode)
    as [quiz [sc [pct [wrong [rec [Hquiz [Hout [Hs [Ht [Hp [Hd [Hn Hsn]]]]]]]]]]]].
  injection Hout as -> ->.
  exists sc, (List.length quiz), pct, wrong, rec.
  split; [reflexivity|].
  repeat (split; [assumption|]).
  intros sid' Hadm. cbn [handle]. rewrite Hadm.
  unfold get_admin_results. cbn [store currentQuiz quizResults].
  rewrite length_app. cbn [List.length]. rewrite Nat.add_1_r. reflexivity.
Qed.

(** X19: a generation answered 200 serves what it validated: the
    quiz route then returns to every session the accepted list, every
    question whole (its correct value included), and the results are
    empty. *)
Theorem generated_quiz_is_served (sid : nat)
    (provider : jsstring -> axios_outcome) (reqBody : json)
    (sv sv1 : Server) (r : Reply) :
  handle cfg sid (PostAdminQuiz provider reqBody) sv = (r, sv1) ->
  code r = 200 ->
  exists quiz,
    accepted quiz
    /\ view r = Handler (QuizGenerated (List.length quiz))
    /\ quizResults (store sv1) = []
    /\ forall sid',
         handle cfg sid' GetQuiz sv1
         = (reply 200 (QuizView quiz true (List.length quiz)), sv1).
Proof.
  cbn [handle]. intros Hh Hcode.
  destruct (post_admin_quiz_cases (world_of cfg provider) (is_admin sid sv)
              (store sv) reqBody) as [[quiz [Hacc Hout]]|[Hno _]].
  - rewrite Hout in Hh. injection Hh as <- <-.
    exists quiz. split; [exact Hacc|].
    split; [reflexivity|]. split; [reflexivity|].
    intros sid'. reflexivity.
  - destruct (post_admin_quiz _ _ _ _) as [resp st].
    injection Hh as <- <-. cbn [fst lift reply code] in *. contradiction.
Qed.

(** X20: in every state the server reaches, the three read routes
    agree: the quiz is available exactly when its count is positive,
    health reports the same availability and count, and health and the
    results route report the number of stored results. *)
Theorem read_routes_agree (tr : list (nat * Request))
    (timestamp : jsstring) (uptime : double) (memory : json) :
  exists quiz,
    get_quiz (store (after cfg tr))
    = reply 200 (QuizView quiz (negb (List.length quiz =? 0)%nat) (List.length quiz))
    /\ get_health cfg timestamp uptime memory (store (after cfg tr))
       = reply 200
           (HealthView timestamp (env_or (NODE_ENV cfg) "development") uptime memory
              (negb (List.length quiz =? 0)%nat) (List.length quiz)
              (List.length (quizResults (store (after cfg tr)))))
    /\ get_admin_results (store (after cfg tr))
       = reply 200
           (ResultsView (quizResults (store (after cfg tr)))
              (List.length (quizResults (store (after cfg tr))))
              (negb (List.length quiz =? 0)%nat)).
Proof.
  pose proof (serve_invariant cfg (fun sv => valid_state (store sv))
                (fun sid req sv => handle_valid_state cfg sid req sv)
                tr initial) as Hv.
  assert (Hvalid : valid_state (store (after cfg tr))).
  { apply Hv. intros quiz Hq. discriminate Hq. }
  unfold get_quiz, get_health, get_admin_results.
  destruct (currentQuiz (store (after cfg tr))) as [quiz|] eqn:Hquiz.
  - exists quiz. destruct (Hvalid quiz Hquiz) as [Hne _].
    destruct quiz as [|q rest]; [contradiction|].
    repeat split.
  - exists []. repeat split.
Qed.

(** X21: the CORS check lets a request through exactly when it names
    no origin, an empty one, one of the three fixed origins, or the
    configured one; every other origin is refused with an error. *)
Theorem cors_allows_exactly (origin : option jsstring) :
  (cors_origin cfg origin = Return true
   <-> origin = None \/ origin = Some []
       \/ exists o, origin = Some o
                    /\ (In o fixed_origins \/ ALLOWED_ORIGIN cfg = Some o))
  /\ (cors_origin cfg origin <> Return true ->
      cors_origin cfg origin = Throw (Error (lit "Not allowed by CORS"))).
Proof.
  unfold cors_origin.
  destruct origin as [[|c o]|]; cbn [env_value truthy negb].
  - split; [|intros H; contradiction].
    split; [intros _; right; left; reflexivity|reflexivity].
  - destruct (existsb (JsString.eqb (c :: o)) (allowedOrigins cfg)) eqn:Hex.
    + split; [|intros H; contradiction].
      split; [|reflexivity]. intros _. right. right.
      exists (c :: o). split; [reflexivity|].
      apply existsb_exists in Hex. destruct Hex as [a [Hin Heq]].
      apply JsString_eqb_eq in Heq. subst a.
      unfold allowedOrigins in Hin. apply in_app_or in Hin.
      destruct Hin as [Hin|Hin]; [left; exact Hin|right].
      destruct (ALLOWED_ORIGIN cfg) as [[|a0 a]|]; try contradiction.
      destruct Hin as [Hin|[]]. rewrite Hin. reflexivity.
    + split; [|reflexivity]. split; [discriminate|].
      intros [H|[H|[o' [Ho Hin]]]]; try discriminate H.
      injection Ho as <-. exfalso.
      assert (Hmem : In (c :: o) (allowedOrigins cfg)).
      { unfold allowedOrigins. apply in_or_app.
        destruct Hin as [Hin|Henv]; [left; exact Hin|right].
        rewrite Henv. left. reflexivity. }
      assert (Htrue : existsb (JsString.eqb (c :: o)) (allowedOrigins cfg) = true).
      { apply existsb_exists. exists (c :: o). split; [exact Hmem|].
        apply JsString_eqb_eq. reflexivity. }
      rewrite Htrue in Hex. discriminate Hex.
  - split; [|intros H; contradiction].
    split; [intros _; left; reflexivity|reflexivity].
Qed.

End RoundTrips.

(** ** The pipeline behind the admin route *)

Section PipelineEdges.

Variable W : World.

(** X6: when the provider answers with a text that is not JSON as a
    whole and that holds a fenced block labelled as JSON, generation
    fails with the parse error of the block taken with its fences. *)
Theorem fenced_answer_fails_generation (t content : jsstring)
    (m : match_array) (e : exn) :
  (20 <= List.length (trim t))%nat ->
  (exists k key, OPENROUTER_API_KEY W = Some (k :: key)) ->
  axios_post W (substring0 1000 t) = Resolved (Some content) ->
  JSON_parse (engine W) content = Throw e ->
  String_match fence_re content = Some m ->
  generateQuizFromText W (Some (JStr t))
  = Throw (Error (lit "Failed to parse extracted JSON: "
                    ++ syntax_error_message (engine W) (whole m))).
Proof.
  intros Hlen Hkey Hpost Hdirect Hmatch.
  rewrite (generateQuizFromText_calls W t Hlen Hkey).
  unfold request_quiz. rewrite Hpost. cbn [bind].
  destruct content as [|c content].
  { exfalso. vm_compute in Hmatch. discriminate Hmatch. }
  assert (Hex : extract (engine W) (c :: content)
                = Throw (Error (lit "Failed to parse extracted JSON: "
                                  ++ syntax_error_message (engine W) (whole m)))).
  { unfold extract. rewrite Hdirect, Hmatch.
    destruct (fence_match_begins_with_fence (c :: content) m Hmatch) as [r Hr].
    unfold JSON_parse. rewrite Hr, parse_text_backquote. reflexivity. }
  rewrite Hex. cbn [bind].
  rewrite (on_error_keeps_json_message (lit "Failed to parse extracted JSON: ") _)
    by (vm_compute; reflexivity).
  reflexivity.
Qed.

(** X9: a text that is not empty but has fewer than 20 code units once
    trimmed (a blank text, for one) passes the check of the route and is
    refused by the pipeline: the answer is 500, not 400, whatever the
    key and the provider, and the state is unchanged. *)
Theorem short_text_refused (st : State) (reqBody : json) (t : jsstring) :
  Get reqBody (lit "text") = Return (Some (JStr t)) ->
  t <> [] ->
  (List.length (trim t) < 20)%nat ->
  post_admin_quiz W true st reqBody
  = (respond 500
       (ErrorBody (lit "Input text must be a meaningful string (at least 20 characters)")),
     st).
Proof.
  intros Hget Hne Hshort.
  unfold post_admin_quiz, requireAdmin, admin_quiz, admin_quiz_try.
  rewrite Hget. cbn [bind].
  destruct t as [|c t]; [contradiction|].
  cbn [truthy negb is_string]. unfold generateQuizFromText.
  cbn [truthy negb orb].
  replace (List.length (trim (c :: t)) <? 20)%nat with true
    by (symmetry; apply Nat.ltb_lt; exact Hshort).
  reflexivity.
Qed.

End PipelineEdges.

(** ** The further properties at sample inputs *)

Lemma fenced_answer_fails_generation_witness :
  generateQuizFromText (world_answering fenced_text) (Some (JStr source_text))
  = Throw (Error (lit "Failed to parse extracted JSON: "
                    ++ syntax_error_message (engine (world_answering fenced_text))
                         (whole {| whole := fenced_text;
                                   group1 := Some one_question_text |}))).
Proof.
  apply (fenced_answer_fails_generation (world_answering fenced_text)
           source_text fenced_text
           {| whole := fenced_text; group1 := Some one_question_text |}
           (Error (lit "Unexpected token"))).
  - vm_compute. lia.
  - exists 115%N, (lit "k-or-key"). reflexivity.
  - reflexivity.
  - vm_compute. reflexivity.
  - vm_compute. reflexivity.
Defined.

Lemma short_text_refused_witness :
  post_admin_quiz world_timing_out true state_with_result
    (JObj [(lit "text", JStr blank_text)])
  = (respond 500
       (ErrorBody (lit "Input text must be a meaningful string (at least 20 characters)")),
     state_with_result).
Proof.
  apply (short_text_refused world_timing_out state_with_result
           (JObj [(lit "text", JStr blank_text)]) blank_text).
  - reflexivity.
  - discriminate.
  - vm_compute. lia.
Defined.

Lemma accepted_submission_adds_up_witness :
  exists sc pct wrong r,
    post_quiz_submit sample_engine timestamp one_question_state
      (submission (lit "Ada") (lit "Lovelace") [lit "b"])
    = (respond 200 (Submitted sc (List.length [one_question]) pct wrong),
       {| currentQuiz := Some [one_question];
          quizResults := quizResults one_question_state ++ [r] |})
    /\ (sc + List.length wrong = List.length [one_question])%nat
    /\ sc = count_matching (JArr [JStr (lit "b")]) [one_question]
    /\ (exists z, Double.to_Z pct = Some z /\ 0 <= z <= 100)
    /\ score r = sc /\ total r = List.length [one_question] /\ percentage r = pct
    /\ Some (JStr (lit "Ada")) = Server.name r
    /\ Some (JStr (lit "Lovelace")) = Server.surname r
    /\ map questionNumber (detailedResults r) = seq 1 (List.length [one_question]).
Proof.
  apply (accepted_submission_adds_up sample_engine timestamp one_question_state
           (submission (lit "Ada") (lit "Lovelace") [lit "b"])
           (Some (JStr (lit "Ada"))) (Some (JStr (lit "Lovelace")))
           (JArr [JStr (lit "b")]) [one_question]).
  - exact one_question_state_valid.
  - reflexivity.
  - reflexivity.
  - reflexivity.
  - reflexivity.
  - vm_compute. reflexivity.
  - vm_compute. reflexivity.
Defined.

Lemma quiz_stays_loaded_witness :
  currentQuiz (store (snd (serve sample_config busy_trace serving_one_question)))
  <> None.
Proof.
  apply (quiz_stays_loaded sample_config busy_trace serving_one_question).
  discriminate.
Defined.

Lemma submitted_result_is_listed_witness :
  exists sc tot pct wrong rec,
    view (fst (handle sample_config 2
                 (PostQuizSubmit timestamp
                    (submission (lit "Ada") (lit "Lovelace") [lit "b"]))
                 serving_one_question))
    = Handler (Submitted sc tot pct wrong)
    /\ score rec = sc /\ total rec = tot /\ percentage rec = pct
    /\ date rec = timestamp
    /\ Get (submission (lit "Ada") (lit "Lovelace") [lit "b"]) (lit "name")
       = Return (Server.name rec)
    /\ Get (submission (lit "Ada") (lit "Lovelace") [lit "b"]) (lit "surname")
       = Return (Server.surname rec)
    /\ forall sid',
         is_admin sid'
           (snd (handle sample_config 2
                   (PostQuizSubmit timestamp
                      (submission (lit "Ada") (lit "Lovelace") [lit "b"]))
                   serving_one_question)) = true ->
         handle sample_config sid' GetAdminResults
           (snd (handle sample_config 2
                   (PostQuizSubmit timestamp
                      (submission (lit "Ada") (lit "Lovelace") [lit "b"]))
                   serving_one_question))
         = (reply 200
              (ResultsView (quizResults (store serving_one_question) ++ [rec])
                 (S (List.length (quizResults (store serving_one_question)))) true),
            snd (handle sample_config 2
                   (PostQuizSubmit timestamp
                      (submission (lit "Ada") (lit "Lovelace") [lit "b"]))
                   serving_one_question)).
Proof.
  apply (submitted_result_is_listed sample_config 2 timestamp
           (submission (lit "Ada") (lit "Lovelace") [lit "b"])
           serving_one_question).
  - apply surjective_pairing.
  - vm_compute. reflexivity.
Defined.

Lemma generated_quiz_is_served_witness :
  exists quiz,
    accepted quiz
    /\ view (fst (handle sample_config 7
                    (PostAdminQuiz answering_one_question generation_request)
                    serving_one_question))
       = Handler (QuizGenerated (List.length quiz))
    /\ quizResults
         (store (snd (handle sample_config 7
                        (PostAdminQuiz answering_one_question generation_request)
                        serving_one_question))) = []
    /\ forall sid',
         handle sample_config sid' GetQuiz
           (snd (handle sample_config 7
                   (PostAdminQuiz answering_one_question generation_request)
                   serving_one_question))
         = (reply 200 (QuizView quiz true (List.length quiz)),
            snd (handle sample_config 7
                   (PostAdminQuiz answering_one_question generation_request)
                   serving_one_question)).
Proof.
  apply (generated_quiz_is_served sample_config 7 answering_one_question
           generation_request serving_one_question).
  - apply surjective_pairing.
  - vm_compute. reflexivity.
Defined.
